(** * Residue/gap frequency maps of the "Path of Least Resistance" scripts

    A shallow embedding of the frequency-map builders
    ([pac_test/test-8_SAVE_MAP.py], [pac_test/test-10_mod6-Gap-Analysis.py],
    [pac_test/2D-Messiness-Map.py]) and of the lookup engines
    ([pac_diagnostic_engine.py], [pac_diagnostic_engine_v2_1.py],
    [v13_recursive_signature.py], [v18_adaptive_engine.py]).

    Conventions of the embedding:
    - Python integers are [Z]; list indices and counters are [nat];
    - [set(prime_list)] is a [gset Z], a [dict] is a [gmap], a
      [defaultdict(int)] is a [gmap] read with default [0];
    - Python floats are exact rationals [Qc] extended with the value
      [float('inf')]; rounding of the division is not modelled;
    - an [IndexError] in a loop body is the result [None] of that body;
    - console output is not modelled. *)

From Stdlib Require Import ZArith Zdivisibility QArith Qcanon DecimalString DecimalZ.
From Stdlib Require Import Ascii.
From stdpp Require Import base option list gmap strings.

(** ** Scores *)

(** A Python float as used for a messiness score: finite, or [float('inf')]. *)
Inductive score : Type :=
  | Finite (q : Qc)
  | Inf.

(** A decimal literal with four fractional digits, [dec4 1468] is [0.1468]. *)
Definition dec4 (n : Z) : Qc := Q2Qc (n # 10000).

(** [d[k] += 1] on a [defaultdict(int)]. *)
Definition incr `{Countable K} (d : gmap K nat) (k : K) : gmap K nat :=
  <[k := S (default 0%nat (d !! k))]> d.

(** [d.get(k, 0)]. *)
Definition get0 `{Countable K} (d : gmap K nat) (k : K) : nat :=
  default 0%nat (d !! k).

(** An integer as a float. *)
Definition Qc_of_Z (z : Z) : Qc := Q2Qc (inject_Z z).

(** [(failures / total_anchors) * 100] when [total_anchors > 0], else
    [float('inf')]: the last loop of every builder. *)
Definition failure_rate (failures total_anchors : nat) : score :=
  if (0 <? total_anchors)%nat
  then Finite (Qc_of_Z (Z.of_nat failures) / Qc_of_Z (Z.of_nat total_anchors)
               * Qc_of_Z 100)%Qc
  else Inf.

(** ** The bounded nearest-prime search (Law I), shared by all builders *)

Module LawI.

(** The [while True] loop of the builders.  One unit of [fuel] is one
    iteration; the loop leaves by [break] after at most 2000 of them. *)
Fixpoint search_loop (prime_set : gset Z) (anchor_S_n : Z)
    (fuel : nat) (search_dist : Z) : Z :=
  match fuel with
  | O => 0%Z
  | S fuel' =>
      let q_lower := (anchor_S_n - search_dist)%Z in
      let q_upper := (anchor_S_n + search_dist)%Z in
      if bool_decide (q_lower ∈ prime_set) then search_dist
      else if bool_decide (q_upper ∈ prime_set) then search_dist
      else
        let search_dist := (search_dist + 1)%Z in
        if (search_dist >? 2000)%Z then 0%Z
        else search_loop prime_set anchor_S_n fuel' search_dist
  end.

(** [min_distance_k] after the loop, started with [search_dist = 1];
    [0] means that the search left the radius. *)
Definition min_distance_k (prime_set : gset Z) (anchor_S_n : Z) : Z :=
  search_loop prime_set anchor_S_n 2000 1.

(** [(min_distance_k > 1) and (min_distance_k not in prime_set)]. *)
Definition is_k_composite (prime_set : gset Z) (min_distance_k : Z) : bool :=
  (min_distance_k >? 1)%Z && negb (bool_decide (min_distance_k ∈ prime_set)).

(** The three outcomes of the criterion for one anchor: [None] when the
    iteration is left by [continue], otherwise the flag [is_k_composite]. *)
Definition failure_criterion (prime_set : gset Z) (anchor_S_n : Z) : option bool :=
  let k := min_distance_k prime_set anchor_S_n in
  if (k =? 0)%Z then None else Some (is_k_composite prime_set k).

End LawI.

Arguments LawI.min_distance_k : simpl never.
Arguments LawI.is_k_composite : simpl never.
Arguments LawI.failure_criterion : simpl never.

(** ** Loading the primes

    [load_primes_from_file], the same text in every builder.  The file is
    [None] when it does not exist, otherwise its lines read as integers.
    Both failures print a message and return [None, None]. *)
Definition load_primes_from_file (MAX_PRIME_PAIRS_TO_TEST START_INDEX : nat)
    (file : option (list Z)) : option (list Z * gset Z) :=
  match file with
  | None => None
  | Some prime_list =>
      let prime_set : gset Z := list_to_set prime_list in
      let required_primes := (MAX_PRIME_PAIRS_TO_TEST + START_INDEX + 10)%nat in
      if (length prime_list <? required_primes)%nat then None
      else Some (prime_list, prime_set)
  end.

(** ** The JSON file of a map *)

(** The JSON text written by [json.dump]: an object whose members have string
    keys and number tokens; [float('inf')] is written as [Infinity]. *)
Inductive json_number : Type :=
  | JFloat (q : Qc)
  | JInfinity.

Definition json_object : Type := list (string * json_number).

(** [str(k)] for an [int] key, as [json.dump] writes it. *)
Definition py_str (k : Z) : string := NilZero.string_of_int (Z.to_int k).

(** [int(s)] on a decimal literal; [None] is [ValueError]. *)
Definition py_int (s : string) : option Z :=
  Z.of_int <$> NilZero.int_of_string s.

Definition json_of_score (v : score) : json_number :=
  match v with
  | Finite q => JFloat q
  | Inf => JInfinity
  end.

Definition score_of_json (t : json_number) : score :=
  match t with
  | JFloat q => Finite q
  | JInfinity => Inf
  end.

(** [json.dump(d, f)] for a dictionary with integer keys.  The members are
    listed in the order of [map_to_list]; Python writes them in insertion
    order, which no loader of the repository observes. *)
Definition json_dump (d : gmap Z score) : json_object :=
  (λ kv, (py_str kv.1, json_of_score kv.2)) <$> map_to_list d.

(** ** [pac_test/test-8_SAVE_MAP.py] *)

Module SaveMap.
Section config.
(** 50000000 and 10 in the script. *)
Variables MAX_PRIME_PAIRS_TO_TEST START_INDEX : nat.

Record scan_state : Type := {
  total_law_I_failures : nat;
  failure_counts : gmap Z nat;
  anchor_counts : gmap Z nat
}.

Definition initial_state : scan_state :=
  {| total_law_I_failures := 0; failure_counts := ∅; anchor_counts := ∅ |}.

(** The body of [for i in range(START_INDEX, loop_end_index)]. *)
Definition scan_body (prime_list : list Z) (prime_set : gset Z)
    (st : scan_state) (i : nat) : option scan_state :=
  p_n ← prime_list !! i;
  p_n_plus_1 ← prime_list !! (i + 1)%nat;
  let anchor_S_n := (p_n + p_n_plus_1)%Z in
  let residue := (anchor_S_n `mod` 210)%Z in
  let st := {| total_law_I_failures := total_law_I_failures st;
               failure_counts := failure_counts st;
               anchor_counts := incr (anchor_counts st) residue |} in
  let min_distance_k := LawI.min_distance_k prime_set anchor_S_n in
  if (min_distance_k =? 0)%Z then Some st
  else
    let is_k_composite := LawI.is_k_composite prime_set min_distance_k in
    if is_k_composite
    then Some {| total_law_I_failures := S (total_law_I_failures st);
                 failure_counts := incr (failure_counts st) residue;
                 anchor_counts := anchor_counts st |}
    else Some st.

Fixpoint scan_loop (prime_list : list Z) (prime_set : gset Z)
    (indices : list nat) (st : scan_state) : option scan_state :=
  match indices with
  | [] => Some st
  | i :: indices' =>
      st' ← scan_body prime_list prime_set st i;
      scan_loop prime_list prime_set indices' st'
  end.

(** The state after the first [n] iterations of the scan. *)
Definition scan_prefix (prime_list : list Z) (prime_set : gset Z) (n : nat)
    : option scan_state :=
  scan_loop prime_list prime_set (seq START_INDEX n) initial_state.

(** [for residue in range(210)]: the dictionary [messiness_scores_v3]. *)
Definition messiness_scores_v3 (st : scan_state) : gmap Z score :=
  foldl (λ m residue,
           let failures := get0 (failure_counts st) residue in
           let total_anchors := get0 (anchor_counts st) residue in
           <[residue := failure_rate failures total_anchors]> m)
        ∅ (seqZ 0 210).

(** [run_mod210_residue_analysis]: the content of the output file, or
    [None] when no file is written. *)
Definition run_mod210_residue_analysis (file : option (list Z))
    : option json_object :=
  '(prime_list, prime_set) ← load_primes_from_file MAX_PRIME_PAIRS_TO_TEST START_INDEX file;
  st ← scan_prefix prime_list prime_set MAX_PRIME_PAIRS_TO_TEST;
  Some (json_dump (messiness_scores_v3 st)).

End config.
End SaveMap.

(** ** The compound (residue, gap category) scan
    [pac_test/test-10_mod6-Gap-Analysis.py] with modulus 6 and
    [pac_test/2D-Messiness-Map.py] with modulus 30 *)

(** [GAP_BIN_SMALL = 18.0] and [GAP_BIN_LARGE = 22.0]; a gap is the
    difference of two integers. *)
Definition GAP_BIN_SMALL : Z := 18.
Definition GAP_BIN_LARGE : Z := 22.

Definition categorize_gap (gap_g_n : Z) : string :=
  if (gap_g_n <? GAP_BIN_SMALL)%Z then "Small"
  else if (gap_g_n >=? GAP_BIN_LARGE)%Z then "Large"
  else "Medium".

Module GapScan.
Section config.
Variable START_INDEX : nat.
(** 6 in [test-10_mod6-Gap-Analysis.py], 30 in [2D-Messiness-Map.py]. *)
Variable modulus : Z.

(** [{res: defaultdict(int) for res in range(modulus)}]. *)
Definition empty_map : gmap Z (gmap string nat) :=
  foldl (λ m res, <[res := ∅]> m) ∅ (seqZ 0 modulus).

(** [d[residue][gap_category] += 1]; [None] is the [KeyError] of
    [d[residue]]. *)
Definition incr2 (d : gmap Z (gmap string nat)) (residue : Z)
    (gap_category : string) : option (gmap Z (gmap string nat)) :=
  inner ← d !! residue;
  Some (<[residue := incr inner gap_category]> d).

Record scan_state : Type := {
  total_law_I_failures : nat;
  failure_map : gmap Z (gmap string nat);
  anchor_map : gmap Z (gmap string nat)
}.

Definition initial_state : scan_state :=
  {| total_law_I_failures := 0; failure_map := empty_map; anchor_map := empty_map |}.

(** The body of [for i in range(START_INDEX, loop_end_index)]. *)
Definition scan_body (prime_list : list Z) (prime_set : gset Z)
    (st : scan_state) (i : nat) : option scan_state :=
  p_n ← prime_list !! i;
  p_n_plus_1 ← prime_list !! (i + 1)%nat;
  let anchor_S_n := (p_n + p_n_plus_1)%Z in
  let gap_g_n := (p_n_plus_1 - p_n)%Z in
  let residue := (anchor_S_n `mod` modulus)%Z in
  let gap_category := categorize_gap gap_g_n in
  anchor_map' ← incr2 (anchor_map st) residue gap_category;
  let st := {| total_law_I_failures := total_law_I_failures st;
               failure_map := failure_map st;
               anchor_map := anchor_map' |} in
  let min_distance_k := LawI.min_distance_k prime_set anchor_S_n in
  if (min_distance_k =? 0)%Z then Some st
  else
    let is_k_composite := LawI.is_k_composite prime_set min_distance_k in
    if is_k_composite
    then
      failure_map' ← incr2 (failure_map st) residue gap_category;
      Some {| total_law_I_failures := S (total_law_I_failures st);
              failure_map := failure_map';
              anchor_map := anchor_map st |}
    else Some st.

Fixpoint scan_loop (prime_list : list Z) (prime_set : gset Z)
    (indices : list nat) (st : scan_state) : option scan_state :=
  match indices with
  | [] => Some st
  | i :: indices' =>
      st' ← scan_body prime_list prime_set st i;
      scan_loop prime_list prime_set indices' st'
  end.

Definition scan_prefix (prime_list : list Z) (prime_set : gset Z) (n : nat)
    : option scan_state :=
  scan_loop prime_list prime_set (seq START_INDEX n) initial_state.

End config.
End GapScan.

(** ** The final map of [pac_test/test-10_mod6-Gap-Analysis.py] *)

Module Mod6Gap.
Section config.
Variables MAX_PRIME_PAIRS_TO_TEST START_INDEX : nat.

(** [for category in ["Small", "Medium", "Large"]], for one residue. *)
Definition add_categories (failure_map anchor_map : gmap Z (gmap string nat))
    (residue : Z) (m : gmap (Z * string) score)
    : option (gmap (Z * string) score) :=
  failures_of ← failure_map !! residue;
  anchors_of ← anchor_map !! residue;
  Some (foldl (λ m category,
                 let failures := get0 failures_of category in
                 let total_anchors := get0 anchors_of category in
                 <[(residue, category) := failure_rate failures total_anchors]> m)
              m ["Small"; "Medium"; "Large"]).

(** [for residue in range(6)], skipping the odd residues: the dictionary
    [messiness_scores_v_mod6_gap]. *)
Fixpoint add_residues (failure_map anchor_map : gmap Z (gmap string nat))
    (residues : list Z) (m : gmap (Z * string) score)
    : option (gmap (Z * string) score) :=
  match residues with
  | [] => Some m
  | residue :: residues' =>
      if negb (residue `mod` 2 =? 0)%Z
      then add_residues failure_map anchor_map residues' m
      else
        m' ← add_categories failure_map anchor_map residue m;
        add_residues failure_map anchor_map residues' m'
  end.

Definition messiness_scores_v_mod6_gap (st : GapScan.scan_state)
    : option (gmap (Z * string) score) :=
  add_residues (GapScan.failure_map st) (GapScan.anchor_map st) (seqZ 0 6) ∅.

(** [{f"{k[0]},{k[1]}": v for k, v in ...items()}] written by [json.dump]. *)
Definition string_key_map (d : gmap (Z * string) score) : json_object :=
  (λ kv, (py_str kv.1.1 +:+ "," +:+ kv.1.2, json_of_score kv.2)) <$> map_to_list d.

(** [run_mod6_gap_analysis]: the content of the output file, or [None]
    when no file is written. *)
Definition run_mod6_gap_analysis (file : option (list Z)) : option json_object :=
  '(prime_list, prime_set) ← load_primes_from_file MAX_PRIME_PAIRS_TO_TEST START_INDEX file;
  st ← GapScan.scan_prefix START_INDEX 6 prime_list prime_set MAX_PRIME_PAIRS_TO_TEST;
  d ← messiness_scores_v_mod6_gap st;
  Some (string_key_map d).

End config.
End Mod6Gap.

(** ** [pac_diagnostic_engine.py] (v1.0) *)

Module EngineV1.

Definition FAILURE_COUNTS_MOD_30 : gmap Z Z :=
  list_to_map
    [ (0, 9907); (1, 0); (2, 654113); (3, 0); (4, 431661); (5, 0);
      (6, 171547); (7, 0); (8, 662464); (9, 0); (10, 751163); (11, 0);
      (12, 199190); (13, 0); (14, 424448); (15, 0); (16, 426340); (17, 0);
      (18, 200139); (19, 0); (20, 749951); (21, 0); (22, 661166); (23, 0);
      (24, 171854); (25, 0); (26, 430955); (27, 0); (28, 654709); (29, 0) ]%Z.

Definition get_messiness_score (anchor_sn : Z) : Z :=
  let residue := (anchor_sn `mod` 30)%Z in
  let score := default 0%Z (FAILURE_COUNTS_MOD_30 !! residue) in
  score.

End EngineV1.

(** ** [pac_diagnostic_engine_v2_1.py] *)

Module EngineV2_1.

Definition MESSINESS_MAP_V2_1 : gmap (Z * string) score :=
  list_to_map
    [ ((0, "Small"), Finite (dec4 1468)); ((0, "Large"), Finite (dec4 1272));
      ((2, "Small"), Finite (dec4 329259)); ((2, "Large"), Finite (dec4 333726));
      ((4, "Small"), Finite (dec4 244134)); ((4, "Medium"), Finite (dec4 212283));
      ((4, "Large"), Finite (dec4 236586));
      ((6, "Small"), Finite (dec4 34541)); ((6, "Medium"), Finite (dec4 31766));
      ((6, "Large"), Finite (dec4 31887));
      ((8, "Small"), Finite (dec4 319059)); ((8, "Large"), Finite (dec4 308648));
      ((10, "Small"), Finite (dec4 237988)); ((10, "Medium"), Finite (dec4 213690));
      ((10, "Large"), Finite (dec4 223325));
      ((12, "Small"), Finite (dec4 40594)); ((12, "Medium"), Finite (dec4 35175));
      ((12, "Large"), Finite (dec4 33869));
      ((14, "Small"), Finite (dec4 229096)); ((14, "Medium"), Finite (dec4 210282));
      ((14, "Large"), Finite (dec4 224500));
      ((16, "Small"), Finite (dec4 229340)); ((16, "Medium"), Finite (dec4 211565));
      ((16, "Large"), Finite (dec4 225176));
      ((18, "Small"), Finite (dec4 40784)); ((18, "Medium"), Finite (dec4 34875));
      ((18, "Large"), Finite (dec4 34216));
      ((20, "Small"), Finite (dec4 237749)); ((20, "Medium"), Finite (dec4 213136));
      ((20, "Large"), Finite (dec4 223276));
      ((22, "Small"), Finite (dec4 319118)); ((22, "Large"), Finite (dec4 308288));
      ((24, "Small"), Finite (dec4 34560)); ((24, "Medium"), Finite (dec4 31808));
      ((24, "Large"), Finite (dec4 32031));
      ((26, "Small"), Finite (dec4 244130)); ((26, "Medium"), Finite (dec4 213267));
      ((26, "Large"), Finite (dec4 234702));
      ((28, "Small"), Finite (dec4 329994)); ((28, "Large"), Finite (dec4 333786)) ]%Z.

Definition IMMUNITY_P5_SCORE : score := Finite (dec4 0).
Definition IMMUNITY_P4_SCORE : score := Finite (dec4 1).

Definition get_messiness_score_v2_1 (anchor_sn gap_g_n : Z) : score :=
  if (anchor_sn `mod` 2310 =? 0)%Z then IMMUNITY_P5_SCORE
  else if (anchor_sn `mod` 210 =? 0)%Z then IMMUNITY_P4_SCORE
  else
    let residue := (anchor_sn `mod` 30)%Z in
    let gap_category := categorize_gap gap_g_n in
    let score := default Inf (MESSINESS_MAP_V2_1 !! (residue, gap_category)) in
    score.

End EngineV2_1.

(** ** Outcomes of a call *)

(** The exceptions a lookup is specified to raise.  No function of the
    repository defines or raises [EngineNotLoadedError]. *)
Inductive py_exception : Type :=
  | EngineNotLoadedError.

Inductive outcome (A : Type) : Type :=
  | Returns (a : A)
  | Raises (e : py_exception).
Arguments Returns {A} a.
Arguments Raises {A} e.

(** ** [v13_recursive_signature.py] and [v18_adaptive_engine.py] *)

Module EngineV13.

(** The global [MESSINESS_MAP_V_MOD6] is [None] until [load_engine_data]
    has run; it is passed to the lookup explicitly. *)
Definition get_vmod6_score (MESSINESS_MAP_V_MOD6 : option (gmap Z score))
    (anchor_sn : Z) : outcome score :=
  match MESSINESS_MAP_V_MOD6 with
  | None => Returns Inf
  | Some d => Returns (default Inf (d !! (anchor_sn `mod` 6)%Z))
  end.

End EngineV13.

Module EngineV18.

(** [{int(k): v for k, v in json.load(f).items()}]; [None] is the
    [ValueError] of [int(k)]. *)
Definition load_map (doc : json_object) : option (gmap Z score) :=
  members ← mapM (λ kv, k ← py_int kv.1; Some (k, score_of_json kv.2)) doc;
  Some (foldl (λ d kv, <[kv.1 := kv.2]> d) ∅ members).

Record engine_globals : Type := {
  MESSINESS_MAP_V_MOD6 : option (gmap Z score);
  MESSINESS_MAP_V_MOD210 : option (gmap Z score)
}.

(** [load_engine_data]: a file is [None] when it does not exist.  The
    result is the returned flag and the globals after the call. *)
Definition load_engine_data (mod6_file mod210_file : option json_object)
    (g : engine_globals) : bool * engine_globals :=
  match mod6_file ≫= load_map with
  | None => (false, g)
  | Some d6 =>
      let g := {| MESSINESS_MAP_V_MOD6 := Some d6;
                  MESSINESS_MAP_V_MOD210 := MESSINESS_MAP_V_MOD210 g |} in
      match mod210_file ≫= load_map with
      | None => (false, g)
      | Some d210 =>
          (true, {| MESSINESS_MAP_V_MOD6 := MESSINESS_MAP_V_MOD6 g;
                    MESSINESS_MAP_V_MOD210 := Some d210 |})
      end
  end.

Definition get_vmod210_score (g : engine_globals) (anchor_sn : Z) : outcome score :=
  match MESSINESS_MAP_V_MOD210 g with
  | None => Returns Inf
  | Some d => Returns (default Inf (d !! (anchor_sn `mod` 210)%Z))
  end.

End EngineV18.

Local Open Scope Z_scope.

(** ** Primality, for the statements about the search *)

(** Trial division, used to build concrete prime sets: none of the [fuel]
    numbers from [d] on divides [n]. *)
Fixpoint no_divisor (n : Z) (fuel : nat) (d : Z) : bool :=
  match fuel with
  | O => true
  | S fuel' => if n `mod` d =? 0 then false else no_divisor n fuel' (d + 1)
  end.

Definition is_primeb (n : Z) : bool :=
  (1 <? n) && no_divisor n (Z.to_nat (n - 2)) 2.

(** The primes below [N], as [set(prime_list)] holds them. *)
Definition primes_below (N : Z) : list Z := filter (λ n, is_primeb n = true) (seqZ 0 N).

(** [prime_set] answers membership like primality for all numbers up to [B]. *)
Definition represents_primes (prime_set : gset Z) (B : Z) : Prop :=
  ∀ n : Z, (n ≤ B)%Z → n ∈ prime_set ↔ Z.prime n.

(** [k] is the least positive offset at which [anchor - k] or [anchor + k]
    is prime. *)
Definition nearest_offset (anchor k : Z) : Prop :=
  (1 ≤ k)%Z ∧ (Z.prime (anchor - k) ∨ Z.prime (anchor + k)) ∧
  ∀ j : Z, (1 ≤ j < k)%Z → ¬ Z.prime (anchor - j) ∧ ¬ Z.prime (anchor + j).

(** The nearest-prime offset exists within the radius and is composite. *)
Definition composite_offset (anchor : Z) : Prop :=
  ∃ k : Z, nearest_offset anchor k ∧ (k ≤ 2000)%Z ∧ k ≠ 1%Z ∧ ¬ Z.prime k.

(** No prime lies within the radius of the anchor. *)
Definition radius_exceeded (anchor : Z) : Prop :=
  ∀ j : Z, (1 ≤ j ≤ 2000)%Z → ¬ Z.prime (anchor - j) ∧ ¬ Z.prime (anchor + j).

(** ** Vocabulary of the statements about the scans *)

(** No member of [prime_set] at the offsets [lo ≤ j < hi] of the anchor. *)
Definition no_hit (prime_set : gset Z) (anchor_S_n lo hi : Z) : Prop :=
  ∀ j : Z, lo ≤ j < hi →
    ((anchor_S_n - j) ∉ prime_set) ∧ ((anchor_S_n + j) ∉ prime_set).

(** A member of [prime_set] at the offset [k] of the anchor. *)
Definition hit (prime_set : gset Z) (anchor_S_n k : Z) : Prop :=
  (anchor_S_n - k) ∈ prime_set ∨ (anchor_S_n + k) ∈ prime_set.

(** The criterion as the code evaluates it, on the loaded set alone: the
    least offset within the radius at which [prime_set] has a member exists,
    is above 1 and is not itself a member of [prime_set]. *)
Definition composite_offset_in (prime_set : gset Z) (anchor_S_n : Z) : Prop :=
  ∃ k : Z, 1 < k ≤ 2000 ∧ hit prime_set anchor_S_n k ∧
           no_hit prime_set anchor_S_n 1 k ∧ k ∉ prime_set.

(** What one iteration of the scan of [test-8_SAVE_MAP.py] does to the
    counters, by the outcome of the criterion. *)
Definition step_of (prime_set : gset Z) (st : SaveMap.scan_state)
    (anchor_S_n : Z) : SaveMap.scan_state :=
  let residue := anchor_S_n `mod` 210 in
  match LawI.failure_criterion prime_set anchor_S_n with
  | Some true =>
      {| SaveMap.total_law_I_failures := S (SaveMap.total_law_I_failures st);
         SaveMap.failure_counts := incr (SaveMap.failure_counts st) residue;
         SaveMap.anchor_counts := incr (SaveMap.anchor_counts st) residue |}
  | _ =>
      {| SaveMap.total_law_I_failures := SaveMap.total_law_I_failures st;
         SaveMap.failure_counts := SaveMap.failure_counts st;
         SaveMap.anchor_counts := incr (SaveMap.anchor_counts st) residue |}
  end.

(** Every bucket has at most as many failures as anchors. *)
Definition counts_consistent (st : SaveMap.scan_state) : Prop :=
  ∀ residue : Z,
    (get0 (SaveMap.failure_counts st) residue
     ≤ get0 (SaveMap.anchor_counts st) residue)%nat.

(** An iteration records a failure for the bucket [residue]. *)
Definition records_failure (st st' : SaveMap.scan_state) (residue : Z) : Prop :=
  SaveMap.total_law_I_failures st' = S (SaveMap.total_law_I_failures st) ∧
  SaveMap.failure_counts st' = incr (SaveMap.failure_counts st) residue.

(** An iteration records no failure. *)
Definition records_no_failure (st st' : SaveMap.scan_state) : Prop :=
  SaveMap.total_law_I_failures st' = SaveMap.total_law_I_failures st ∧
  SaveMap.failure_counts st' = SaveMap.failure_counts st.

(** Every residue below [modulus] is a key of the outer dictionary. *)
Definition keyed (modulus : Z) (d : gmap Z (gmap string nat)) : Prop :=
  ∀ residue : Z, 0 ≤ residue < modulus → is_Some (d !! residue).

(** Both dictionaries of a compound scan are keyed by every residue. *)
Definition state_keyed (modulus : Z) (st : GapScan.scan_state) : Prop :=
  keyed modulus (GapScan.failure_map st) ∧ keyed modulus (GapScan.anchor_map st).

(** The keys of the map written by [test-10_mod6-Gap-Analysis.py]. *)
Definition mod6_gap_keys : list (Z * string) :=
  [ (0, "Small"); (0, "Medium"); (0, "Large");
    (2, "Small"); (2, "Medium"); (2, "Large");
    (4, "Small"); (4, "Medium"); (4, "Large") ].

(** [anchor_map[residue].get(category, 0)], with no entry for a residue that
    is not a key. *)
Definition get2 (d : gmap Z (gmap string nat)) (residue : Z) (category : string) : nat :=
  get0 (default ∅ (d !! residue)) category.

(** ** Concrete inputs *)

(** The first 21 primes: enough for one pair scanned from index 10. *)
Definition first_primes : list Z :=
  [2; 3; 5; 7; 11; 13; 17; 19; 23; 29; 31; 37; 41; 43; 47; 53; 59; 61; 67; 71; 73].

(** The 21 consecutive primes from 10007 on.  The pair at index 10 is
    (10099, 10103); its anchor 20202 is more than 2000 away from every
    member of the list. *)
Definition primes_from_10007 : list Z :=
  [10007; 10009; 10037; 10039; 10061; 10067; 10069; 10079; 10091; 10093;
   10099; 10103; 10111; 10133; 10139; 10141; 10151; 10159; 10163; 10169; 10177].

(** The first 27 primes, 2 to 103: the shortest list the loader accepts for
    7 pairs scanned from index 10.  The pair at index 15 is (53, 59); the
    nearest prime of its anchor 112 is 113, which the list does not hold. *)
Definition first_27_primes : list Z := primes_below 104.

(** The first 100 primes, 2 to 541.  Scanned from index 10 for 46 pairs, the
    anchors 53 + 59 = 112 and 263 + 269 = 532 are the two of the bucket 112;
    the nearest primes of 532 are 523 and 541, at the composite offset 9. *)
Definition first_100_primes : list Z := primes_below 542.

(** The counters after that scan. *)
Definition counters_of_100_primes : SaveMap.scan_state :=
  default SaveMap.initial_state
    (SaveMap.scan_prefix 10 first_100_primes (list_to_set first_100_primes) 46).

(** The counters of [test-10_mod6-Gap-Analysis.py] after one pair of
    [first_primes] scanned from index 10. *)
Definition mod6_counters_of_first_primes : GapScan.scan_state :=
  default (GapScan.initial_state 6)
    (GapScan.scan_prefix 10 6 first_primes (list_to_set first_primes) 1).

(** ** Totals of the counters *)

(** [sum(d.values())]. *)
Definition total_count `{Countable K} (d : gmap K nat) : nat :=
  map_fold (λ _ v acc, (v + acc)%nat) 0%nat d.

(** ** The final map of [pac_test/2D-Messiness-Map.py] *)

Module MessinessMap2D.

(** [for category in ["Small", "Medium", "Large"]], for one residue, after
    [if not anchor_map[residue]: continue]. *)
Definition add_categories (failure_map anchor_map : gmap Z (gmap string nat))
    (residue : Z) (m : gmap (Z * string) score)
    : option (gmap (Z * string) score) :=
  anchors_of ← anchor_map !! residue;
  if decide (anchors_of = ∅) then Some m
  else
    failures_of ← failure_map !! residue;
    Some (foldl (λ m category,
                   let failures := get0 failures_of category in
                   let total_anchors := get0 anchors_of category in
                   if (0 <? total_anchors)%nat
                   then <[(residue, category) := failure_rate failures total_anchors]> m
                   else m)
                m ["Small"; "Medium"; "Large"]).

(** [for residue in range(30)]: the dictionary [messiness_scores]. *)
Fixpoint add_residues (failure_map anchor_map : gmap Z (gmap string nat))
    (residues : list Z) (m : gmap (Z * string) score)
    : option (gmap (Z * string) score) :=
  match residues with
  | [] => Some m
  | residue :: residues' =>
      m' ← add_categories failure_map anchor_map residue m;
      add_residues failure_map anchor_map residues' m'
  end.

Definition messiness_scores (st : GapScan.scan_state)
    : option (gmap (Z * string) score) :=
  add_residues (GapScan.failure_map st) (GapScan.anchor_map st) (seqZ 0 30) ∅.

End MessinessMap2D.

(** ** [PLR_Tests/PLR_conjecture_v_mod6_gap.py] *)

Module Mod6GapEngine.

(** [s.split(sep)] for a separator of one character. *)
Fixpoint split (sep : ascii) (s : string) : list string :=
  match s with
  | EmptyString => [EmptyString]
  | String c s' =>
      if Ascii.eqb c sep then EmptyString :: split sep s'
      else
        match split sep s' with
        | [] => [String c EmptyString]
        | part :: parts => String c part :: parts
        end
  end.

(** The loop [for k_str, v in data.items()] over the members of the file,
    filling the global dictionary in place.  The flag is [false] when a key
    does not split into two parts or its residue is not an integer literal;
    the dictionary then holds the members read before. *)
Fixpoint load_members (members : json_object) (d : gmap (Z * string) score)
    : bool * gmap (Z * string) score :=
  match members with
  | [] => (true, d)
  | (k_str, v) :: members' =>
      match split ","%char k_str with
      | [residue_str; category] =>
          match py_int residue_str with
          | Some residue =>
              load_members members' (<[(residue, category) := score_of_json v]> d)
          | None => (false, d)
          end
      | _ => (false, d)
      end
  end.

(** [load_engine_data]: the returned flag and the global
    [MESSINESS_MAP_V_MOD6_GAP] after the call.  The file is [None] when it
    does not exist. *)
Definition load_engine_data (file : option json_object)
    (MESSINESS_MAP_V_MOD6_GAP : option (gmap (Z * string) score))
    : bool * option (gmap (Z * string) score) :=
  match file with
  | None => (false, MESSINESS_MAP_V_MOD6_GAP)
  | Some data =>
      let '(ok, d) := load_members data ∅ in (ok, Some d)
  end.

Definition get_messiness_score_v_mod6_gap
    (MESSINESS_MAP_V_MOD6_GAP : option (gmap (Z * string) score))
    (anchor_sn gap_g_n : Z) : score :=
  match MESSINESS_MAP_V_MOD6_GAP with
  | None => Inf
  | Some d =>
      let residue := anchor_sn `mod` 6 in
      let gap_category := categorize_gap gap_g_n in
      let score := default Inf (d !! (residue, gap_category)) in
      score
  end.

End Mod6GapEngine.

(** ** Comparing and sorting floats *)

(** [a < b] on floats that are finite or [float('inf')]. *)
Definition score_ltb (a b : score) : bool :=
  match a, b with
  | Finite x, Finite y => bool_decide (x < y)%Qc
  | Finite _, Inf => true
  | Inf, _ => false
  end.

(** [a == b] on such floats. *)
Definition score_eqb (a b : score) : bool :=
  match a, b with
  | Finite x, Finite y => bool_decide (x = y)
  | Inf, Inf => true
  | _, _ => false
  end.

(** [l.sort(key=key)].  Python's sort is stable and compares keys with [<]
    only; it is modelled by the stable insertion sort, which places an
    element before the first element with a strictly greater key. *)
Section py_sort.
Context {A K : Type}.
Variable ltb : K → K → bool.
Variable key : A → K.

Fixpoint sort_insert (x : A) (sorted : list A) : list A :=
  match sorted with
  | [] => [x]
  | y :: sorted' =>
      if ltb (key x) (key y) then x :: y :: sorted'
      else y :: sort_insert x sorted'
  end.

Definition py_sort (l : list A) : list A :=
  foldl (λ sorted x, sort_insert x sorted) [] l.

End py_sort.

(** The value a call returns; [None] when it raises. *)
Definition outcome_value {A : Type} (o : outcome A) : option A :=
  match o with
  | Returns a => Some a
  | Raises _ => None
  end.

(** ** The predictions of [v18_adaptive_engine.py] *)

Module AdaptiveV18.

Definition CLEAN_THRESHOLD : score := Finite (Qc_of_Z 3).
Definition MESSY_THRESHOLD : score := Finite (Qc_of_Z 20).
Definition MAX_SIGNATURE_SEARCH_DEPTH : nat := 4.

Section arithmetic.
(** [(score_mod6 + 1.0) * gap_g_n] as Python computes it in double
    arithmetic: the rounded product, a double or infinity.  Nothing is
    assumed about the rounding. *)
Variable weighted_product : Qc → Z → score.

Definition get_messiness_score_v11_weighted (g : EngineV18.engine_globals)
    (anchor_sn gap_g_n : Z) : outcome score :=
  match EngineV18.MESSINESS_MAP_V_MOD6 g with
  | None => Returns Inf
  | Some d =>
      let score_mod6 := default Inf (d !! (anchor_sn `mod` 6)) in
      match score_mod6 with
      | Inf => Returns Inf
      | Finite s => Returns (weighted_product s gap_g_n)
      end
  end.

(** The same text as in [v13_recursive_signature.py]. *)
Definition get_vmod6_score (g : EngineV18.engine_globals) (anchor_sn : Z)
    : outcome score :=
  EngineV13.get_vmod6_score (EngineV18.MESSINESS_MAP_V_MOD6 g) anchor_sn.

(** [for rank_index in range(1, MAX_SIGNATURE_SEARCH_DEPTH)] over the sorted
    triples [(score_v11, q_i, vmod6_rate)]. *)
Fixpoint signature_search (candidate_scores : list (score * Z * score))
    (ranks : list nat) (prediction_v16 : Z) : Z :=
  match ranks with
  | [] => prediction_v16
  | rank_index :: ranks' =>
      match candidate_scores !! rank_index with
      | None => prediction_v16
      | Some next_candidate =>
          let next_candidate_vmod6 := next_candidate.2 in
          if score_ltb MESSY_THRESHOLD next_candidate_vmod6
          then next_candidate.1.2
          else signature_search candidate_scores ranks' prediction_v16
      end
  end.

(** The list [candidate_scores] before sorting. *)
Definition score_candidates (g : EngineV18.engine_globals) (p_n : Z)
    (candidates : list Z) : option (list (score * Z * score)) :=
  mapM (λ q_i,
          let S_cand := p_n + q_i in
          let gap_g_i := q_i - p_n in
          score_v11 ← outcome_value (get_messiness_score_v11_weighted g S_cand gap_g_i);
          vmod6_rate ← outcome_value (get_vmod6_score g S_cand);
          Some (score_v11, q_i, vmod6_rate))
       candidates.

(** [get_v16_prediction]; [None] is an exception, here the [IndexError] of
    [candidate_scores[0]]. *)
Definition get_v16_prediction (g : EngineV18.engine_globals) (p_n : Z)
    (candidates : list Z) : option Z :=
  candidate_scores ← score_candidates g p_n candidates;
  let candidate_scores := py_sort score_ltb (λ x, x.1.1) candidate_scores in
  winner ← candidate_scores !! 0%nat;
  let winner_v11_prime := winner.1.2 in
  let winner_v11_vmod6 := winner.2 in
  let prediction_v16 := winner_v11_prime in
  if score_ltb winner_v11_vmod6 CLEAN_THRESHOLD
  then Some (signature_search candidate_scores
               (seq 1 (MAX_SIGNATURE_SEARCH_DEPTH - 1)) prediction_v16)
  else Some prediction_v16.

(** [<] on the tuples [(vmod6_rate, vmod210_rate, gap_g_i)]: the first
    components that differ decide. *)
Definition tuple_ltb (a b : score * score * Z) : bool :=
  if negb (score_eqb a.1.1 b.1.1) then score_ltb a.1.1 b.1.1
  else if negb (score_eqb a.1.2 b.1.2) then score_ltb a.1.2 b.1.2
  else a.2 <? b.2.

Definition tuple_candidates (g : EngineV18.engine_globals) (p_n : Z)
    (candidates : list Z) : option (list ((score * score * Z) * Z)) :=
  mapM (λ q_i,
          let S_cand := p_n + q_i in
          let gap_g_i := q_i - p_n in
          vmod6_rate ← outcome_value (get_vmod6_score g S_cand);
          vmod210_rate ← outcome_value (EngineV18.get_vmod210_score g S_cand);
          let score_tuple := (vmod6_rate, vmod210_rate, gap_g_i) in
          Some (score_tuple, q_i))
       candidates.

Definition get_v17_tiebreaker_prediction (g : EngineV18.engine_globals)
    (p_n : Z) (candidates : list Z) : option Z :=
  candidate_scores ← tuple_candidates g p_n candidates;
  let candidate_scores := py_sort tuple_ltb (λ x, x.1) candidate_scores in
  winner ← candidate_scores !! 0%nat;
  Some winner.2.

Section config.
(** 50000000, 10 and 10 in the script. *)
Variables PRIMES_TO_TEST NUM_CANDIDATES_TO_CHECK START_INDEX : nat.

(** [load_primes_from_file] of this script returns the list alone. *)
Definition load_primes_from_file (file : option (list Z)) : option (list Z) :=
  match file with
  | None => None
  | Some prime_list =>
      let required_primes :=
        (PRIMES_TO_TEST + START_INDEX + NUM_CANDIDATES_TO_CHECK + 2)%nat in
      if (length prime_list <? required_primes)%nat then None
      else Some prime_list
  end.

Record tallies : Type := {
  total_predictions : nat;
  total_successes_v16_baseline : nat;
  total_successes_v18_new_champ : nat;
  small_gap_predictions : nat;
  large_gap_predictions : nat
}.

Definition no_tallies : tallies :=
  {| total_predictions := 0; total_successes_v16_baseline := 0;
     total_successes_v18_new_champ := 0; small_gap_predictions := 0;
     large_gap_predictions := 0 |}.

(** The body of [for i in range(START_INDEX, loop_end_index)]. *)
Definition run_body (g : EngineV18.engine_globals) (prime_list : list Z)
    (t : tallies) (i : nat) : option tallies :=
  p_n ← prime_list !! i;
  true_p_n_plus_1 ← prime_list !! (i + 1)%nat;
  candidates ← mapM (λ j, prime_list !! (i + j)%nat) (seq 1 NUM_CANDIDATES_TO_CHECK);
  let total_predictions := S (total_predictions t) in
  prediction_v16 ← get_v16_prediction g p_n candidates;
  let total_successes_v16_baseline :=
    if prediction_v16 =? true_p_n_plus_1
    then S (total_successes_v16_baseline t) else total_successes_v16_baseline t in
  let true_gap := true_p_n_plus_1 - p_n in
  let true_gap_category := categorize_gap true_gap in
  if String.eqb true_gap_category "Large" || String.eqb true_gap_category "Medium"
  then
    final_prediction_v18 ← get_v16_prediction g p_n candidates;
    Some {| total_predictions := total_predictions;
            total_successes_v16_baseline := total_successes_v16_baseline;
            total_successes_v18_new_champ :=
              if final_prediction_v18 =? true_p_n_plus_1
              then S (total_successes_v18_new_champ t)
              else total_successes_v18_new_champ t;
            small_gap_predictions := small_gap_predictions t;
            large_gap_predictions := S (large_gap_predictions t) |}
  else
    final_prediction_v18 ← get_v17_tiebreaker_prediction g p_n candidates;
    Some {| total_predictions := total_predictions;
            total_successes_v16_baseline := total_successes_v16_baseline;
            total_successes_v18_new_champ :=
              if final_prediction_v18 =? true_p_n_plus_1
              then S (total_successes_v18_new_champ t)
              else total_successes_v18_new_champ t;
            small_gap_predictions := S (small_gap_predictions t);
            large_gap_predictions := large_gap_predictions t |}.

Fixpoint run_loop (g : EngineV18.engine_globals) (prime_list : list Z)
    (indices : list nat) (t : tallies) : option tallies :=
  match indices with
  | [] => Some t
  | i :: indices' =>
      t' ← run_body g prime_list t i;
      run_loop g prime_list indices' t'
  end.

(** How [run_PLR_v18_adaptive_test] ends: it returns before the loop, it
    raises, or it prints its report for the tallies. *)
Inductive run_result : Type :=
  | Stopped
  | Raised
  | Reported (t : tallies).

(** [run_PLR_v18_adaptive_test].  The report divides by [total_predictions]
    without a test, a [ZeroDivisionError] when it is 0. *)
Definition run_PLR_v18_adaptive_test (mod6_file mod210_file : option json_object)
    (prime_file : option (list Z)) (g : EngineV18.engine_globals) : run_result :=
  let '(loaded, g) := EngineV18.load_engine_data mod6_file mod210_file g in
  if negb loaded then Stopped
  else
    match load_primes_from_file prime_file with
    | None => Stopped
    | Some prime_list =>
        let loop_end_index := (PRIMES_TO_TEST + START_INDEX)%nat in
        if Z.of_nat loop_end_index
           >=? Z.of_nat (length prime_list) - (Z.of_nat NUM_CANDIDATES_TO_CHECK + 2)
        then Stopped
        else
          match run_loop g prime_list (seq START_INDEX PRIMES_TO_TEST) no_tallies with
          | None => Raised
          | Some t =>
              if (total_predictions t =? 0)%nat then Raised else Reported t
          end
    end.

End config.
End arithmetic.
End AdaptiveV18.

(** ** The loop of [v13_recursive_signature.py] *)

Module RecursiveV13.

Definition CLEAN_THRESHOLD : score := Finite (Qc_of_Z 3).
Definition MESSY_THRESHOLD : score := Finite (Qc_of_Z 20).

(** [load_engine_data]: the returned flag and the global after the call. *)
Definition load_engine_data (mod6_file : option json_object)
    (MESSINESS_MAP_V_MOD6 : option (gmap Z score))
    : bool * option (gmap Z score) :=
  match mod6_file ≫= EngineV18.load_map with
  | None => (false, MESSINESS_MAP_V_MOD6)
  | Some d => (true, Some d)
  end.

Section arithmetic.
(** [(score_mod6 + 1.0) * gap_g_n] as Python computes it in double
    arithmetic: the rounded product, a double or infinity.  Nothing is
    assumed about the rounding. *)
Variable weighted_product : Qc → Z → score.

Definition get_messiness_score_v11_weighted
    (MESSINESS_MAP_V_MOD6 : option (gmap Z score)) (anchor_sn gap_g_n : Z) : score :=
  match MESSINESS_MAP_V_MOD6 with
  | None => Inf
  | Some d =>
      let score_mod6 := default Inf (d !! (anchor_sn `mod` 6)) in
      match score_mod6 with
      | Inf => Inf
      | Finite s => weighted_product s gap_g_n
      end
  end.

Section config.
(** 50000000, 10, 10 and 6 in the script. *)
Variables PRIMES_TO_TEST NUM_CANDIDATES_TO_CHECK START_INDEX : nat.
Variable RECURSIVE_SEARCH_DEPTH : nat.

Definition load_primes_from_file (file : option (list Z)) : option (list Z) :=
  match file with
  | None => None
  | Some prime_list =>
      let required_primes :=
        (PRIMES_TO_TEST + START_INDEX + NUM_CANDIDATES_TO_CHECK + 2)%nat in
      if (length prime_list <? required_primes)%nat then None
      else Some prime_list
  end.

(** [for rank_index in range(1, RECURSIVE_SEARCH_DEPTH)] over the sorted
    pairs [(score_v11, q_i)]: the final prediction, and whether an override
    was counted. *)
Fixpoint recursive_search (MESSINESS_MAP_V_MOD6 : option (gmap Z score))
    (candidate_scores : list (score * Z)) (p_n : Z) (ranks : list nat)
    (final_prediction : Z) : option (Z * bool) :=
  match ranks with
  | [] => Some (final_prediction, false)
  | rank_index :: ranks' =>
      match candidate_scores !! rank_index with
      | None => Some (final_prediction, false)
      | Some next_candidate =>
          let next_candidate_prime := next_candidate.2 in
          let next_candidate_anchor := p_n + next_candidate_prime in
          next_candidate_vmod6 ←
            outcome_value (EngineV13.get_vmod6_score MESSINESS_MAP_V_MOD6
                             next_candidate_anchor);
          if score_ltb MESSY_THRESHOLD next_candidate_vmod6
          then Some (next_candidate_prime, true)
          else recursive_search MESSINESS_MAP_V_MOD6 candidate_scores p_n ranks'
                 final_prediction
      end
  end.

(** The two predictions of one pass of the loop: the v11 winner, the final
    prediction, and whether an override was counted.  [None] is an
    exception, here the [IndexError] of [candidate_scores[0]]. *)
Definition predictions (MESSINESS_MAP_V_MOD6 : option (gmap Z score)) (p_n : Z)
    (candidates : list Z) : option (Z * Z * bool) :=
  let candidate_scores :=
    (λ q_i,
       let S_cand := p_n + q_i in
       let gap_g_i := q_i - p_n in
       let score_v11 :=
         get_messiness_score_v11_weighted MESSINESS_MAP_V_MOD6 S_cand gap_g_i in
       (score_v11, q_i)) <$> candidates in
  let candidate_scores := py_sort score_ltb (λ x, x.1) candidate_scores in
  winner ← candidate_scores !! 0%nat;
  let winner_v11_prime := winner.2 in
  let final_prediction := winner_v11_prime in
  let winner_v11_anchor := p_n + winner_v11_prime in
  winner_v11_vmod6 ←
    outcome_value (EngineV13.get_vmod6_score MESSINESS_MAP_V_MOD6 winner_v11_anchor);
  if score_ltb winner_v11_vmod6 CLEAN_THRESHOLD
  then
    '(final_prediction, overridden) ←
      recursive_search MESSINESS_MAP_V_MOD6 candidate_scores p_n
        (seq 1 (RECURSIVE_SEARCH_DEPTH - 1)) final_prediction;
    Some (winner_v11_prime, final_prediction, overridden)
  else Some (winner_v11_prime, final_prediction, false).

Record tallies : Type := {
  total_predictions : nat;
  total_successes_v11_baseline : nat;
  total_successes_v13_new_champ : nat;
  total_overrides_attempted : nat
}.

Definition no_tallies : tallies :=
  {| total_predictions := 0; total_successes_v11_baseline := 0;
     total_successes_v13_new_champ := 0; total_overrides_attempted := 0 |}.

(** The body of [for i in range(START_INDEX, loop_end_index)]. *)
Definition run_body (MESSINESS_MAP_V_MOD6 : option (gmap Z score))
    (prime_list : list Z) (t : tallies) (i : nat) : option tallies :=
  p_n ← prime_list !! i;
  true_p_n_plus_1 ← prime_list !! (i + 1)%nat;
  candidates ← mapM (λ j, prime_list !! (i + j)%nat) (seq 1 NUM_CANDIDATES_TO_CHECK);
  '(winner_v11_prime, final_prediction, overridden) ←
    predictions MESSINESS_MAP_V_MOD6 p_n candidates;
  Some {| total_predictions := S (total_predictions t);
          total_successes_v11_baseline :=
            if winner_v11_prime =? true_p_n_plus_1
            then S (total_successes_v11_baseline t)
            else total_successes_v11_baseline t;
          total_successes_v13_new_champ :=
            if final_prediction =? true_p_n_plus_1
            then S (total_successes_v13_new_champ t)
            else total_successes_v13_new_champ t;
          total_overrides_attempted :=
            if overridden : bool then S (total_overrides_attempted t)
            else total_overrides_attempted t |}.

Fixpoint run_loop (MESSINESS_MAP_V_MOD6 : option (gmap Z score))
    (prime_list : list Z) (indices : list nat) (t : tallies) : option tallies :=
  match indices with
  | [] => Some t
  | i :: indices' =>
      t' ← run_body MESSINESS_MAP_V_MOD6 prime_list t i;
      run_loop MESSINESS_MAP_V_MOD6 prime_list indices' t'
  end.

Inductive run_result : Type :=
  | Stopped
  | Raised
  | Reported (t : tallies).


End config.
End arithmetic.
End RecursiveV13.

(** ** Vocabulary of the statements about the predictions *)

(** The value [get_messiness_score_v11_weighted] returns. *)
Definition weighted_score (weighted_product : Qc → Z → score)
    (g : EngineV18.engine_globals) (anchor_sn gap_g_n : Z) : score :=
  default Inf
    (outcome_value
       (AdaptiveV18.get_messiness_score_v11_weighted weighted_product g anchor_sn gap_g_n)).

(** The value [get_vmod6_score] returns. *)
Definition vmod6_rate (g : EngineV18.engine_globals) (anchor_sn : Z) : score :=
  default Inf (outcome_value (AdaptiveV18.get_vmod6_score g anchor_sn)).

(** The value [get_vmod210_score] returns. *)
Definition vmod210_rate (g : EngineV18.engine_globals) (anchor_sn : Z) : score :=
  default Inf (outcome_value (EngineV18.get_vmod210_score g anchor_sn)).

(** The sort key of a candidate in [get_v17_tiebreaker_prediction]. *)
Definition score_tuple (g : EngineV18.engine_globals) (p_n q_i : Z)
    : score * score * Z :=
  (vmod6_rate g (p_n + q_i), vmod210_rate g (p_n + q_i), q_i - p_n).



(** The gap categories, in the order of the final loops. *)
Definition three_categories : list string := ["Small"; "Medium"; "Large"].

(** A string without the character [c]. *)
Fixpoint free_of (c : ascii) (s : string) : Prop :=
  match s with
  | EmptyString => True
  | String c' s' => c' ≠ c ∧ free_of c s'
  end.

(** A mod-6 map with a clean, a messy and a clean bucket, and the engine
    that has loaded it together with an empty mod-210 map. *)
Definition mod6_rates : gmap Z score :=
  {[ 0 := Finite (Qc_of_Z 1); 2 := Finite (Qc_of_Z 25); 4 := Finite (Qc_of_Z 2) ]}.

Definition loaded_engine : EngineV18.engine_globals :=
  {| EngineV18.MESSINESS_MAP_V_MOD6 := Some mod6_rates;
     EngineV18.MESSINESS_MAP_V_MOD210 := Some ∅ |}.

(** The product without rounding.  On the rates and gaps of the examples
    below it is a small integer, which double arithmetic computes exactly. *)
Definition exact_product (score_mod6 : Qc) (gap_g_n : Z) : score :=
  Finite ((score_mod6 + Qc_of_Z 1) * Qc_of_Z gap_g_n)%Qc.

(** The engine before [load_engine_data] has run. *)
Definition unloaded_engine : EngineV18.engine_globals :=
  {| EngineV18.MESSINESS_MAP_V_MOD6 := None;
     EngineV18.MESSINESS_MAP_V_MOD210 := None |}.

(** * Properties *)

(** ** The search loop *)

Section search.
Variable prime_set : gset Z.
Variable anchor_S_n : Z.

Local Abbreviation no_hit := (no_hit prime_set anchor_S_n).
Local Abbreviation hit := (hit prime_set anchor_S_n).

Lemma search_loop_spec (fuel : nat) (d : Z) :
  1 ≤ d ≤ 2000 → 2001 - d ≤ Z.of_nat fuel →
  let r := LawI.search_loop prime_set anchor_S_n fuel d in
  (r = 0%Z ∧ no_hit d 2001) ∨ ((d ≤ r ≤ 2000)%Z ∧ hit r ∧ no_hit d r).
Proof.
  revert d. induction fuel as [|fuel IH]; intros d Hd Hfuel; [lia|].
  cbn [LawI.search_loop]. cbv zeta.
  case_bool_decide as Hlo.
  { right. split; [lia|]. split; [by left|]. intros j Hj; lia. }
  case_bool_decide as Hup.
  { right. split; [lia|]. split; [by right|]. intros j Hj; lia. }
  destruct (Z.gtb_spec (d + 1) 2000) as [Hout|Hin].
  - left. split; [done|]. intros j Hj.
    assert (j = d) as -> by lia. done.
  - destruct (IH (d + 1)) as [[Hr Hno]|(Hr & Hhit & Hno)]; [lia|lia| |].
    + left. split; [done|]. intros j Hj.
      destruct (decide (j = d)) as [->|]; [done|]. apply Hno; lia.
    + right. split; [lia|]. split; [done|]. intros j Hj.
      destruct (decide (j = d)) as [->|]; [done|]. apply Hno; lia.
Qed.

(** The loop never runs out of fuel: any two sufficient amounts of fuel
    give the same result. *)
Lemma search_loop_fuel (fuel fuel' : nat) (d : Z) :
  1 ≤ d ≤ 2000 → 2001 - d ≤ Z.of_nat fuel → 2001 - d ≤ Z.of_nat fuel' →
  LawI.search_loop prime_set anchor_S_n fuel d
  = LawI.search_loop prime_set anchor_S_n fuel' d.
Proof.
  revert fuel' d. induction fuel as [|fuel IH]; intros [|fuel'] d Hd H1 H2;
    try lia.
  cbn [LawI.search_loop]; cbv zeta.
  repeat case_bool_decide; try done.
  destruct (Z.gtb_spec (d + 1) 2000); [done|]. apply IH; lia.
Qed.

(** [min_distance_k] is the result of the loop for any fuel of at least
    2000 iterations. *)
Lemma min_distance_k_fuel (fuel : nat) :
  (2000 ≤ fuel)%nat →
  LawI.search_loop prime_set anchor_S_n fuel 1
  = LawI.min_distance_k prime_set anchor_S_n.
Proof. intros Hfuel. apply search_loop_fuel; lia. Qed.

Lemma min_distance_k_spec :
  let k := LawI.min_distance_k prime_set anchor_S_n in
  (k = 0%Z ∧ no_hit 1 2001) ∨ ((1 ≤ k ≤ 2000)%Z ∧ hit k ∧ no_hit 1 k).
Proof. apply search_loop_spec; lia. Qed.

End search.

(** ** Counters *)

Lemma get0_incr `{Countable K} (d : gmap K nat) (k k' : K) :
  get0 (incr d k) k' = if decide (k = k') then S (get0 d k) else get0 d k'.
Proof.
  unfold get0, incr. destruct (decide (k = k')) as [->|Hne].
  - by rewrite lookup_insert_eq.
  - by rewrite lookup_insert_ne.
Qed.

Lemma get0_empty `{Countable K} (k : K) : get0 (∅ : gmap K nat) k = 0%nat.
Proof. unfold get0. by rewrite lookup_empty. Qed.

Lemma incr_neq `{Countable K} (d : gmap K nat) (k : K) : incr d k ≠ d.
Proof.
  intros Heq. assert (get0 (incr d k) k = get0 d k) as Hk by (by rewrite Heq).
  rewrite get0_incr in Hk. case_decide; [lia|done].
Qed.

(** ** The scan of [test-8_SAVE_MAP.py] *)

Section save_map_scan.
Variable START_INDEX : nat.
Variable prime_list : list Z.
Variable prime_set : gset Z.

Local Abbreviation scan_body := (SaveMap.scan_body prime_list prime_set).
Local Abbreviation scan_loop := (SaveMap.scan_loop prime_list prime_set).

Local Abbreviation step_of := (step_of prime_set).

Lemma scan_body_step (st : SaveMap.scan_state) (i : nat) (p_n p_n_plus_1 : Z) :
  prime_list !! i = Some p_n → prime_list !! (i + 1)%nat = Some p_n_plus_1 →
  scan_body st i = Some (step_of st (p_n + p_n_plus_1)).
Proof.
  intros Hp Hq. unfold SaveMap.scan_body, step_of, LawI.failure_criterion.
  rewrite Hp, Hq. cbn.
  destruct (LawI.min_distance_k prime_set (p_n + p_n_plus_1) =? 0); [done|].
  by destruct (LawI.is_k_composite _ _).
Qed.

Lemma scan_body_in_range (st : SaveMap.scan_state) (i : nat) :
  (i + 1 < length prime_list)%nat → is_Some (scan_body st i).
Proof.
  intros Hi.
  destruct (lookup_lt_is_Some_2 prime_list i) as [p Hp]; [lia|].
  destruct (lookup_lt_is_Some_2 prime_list (i + 1)) as [q Hq]; [lia|].
  rewrite (scan_body_step st i p q Hp Hq). by eexists.
Qed.

(** An [IndexError] is the only way a body fails. *)
Lemma scan_loop_in_range (indices : list nat) (st : SaveMap.scan_state) :
  Forall (λ i, (i + 1 < length prime_list)%nat) indices →
  is_Some (scan_loop indices st).
Proof.
  revert st. induction indices as [|i indices IH]; intros st Hall; cbn.
  - by eexists.
  - inversion Hall as [|? ? Hi Hrest]; subst.
    destruct (scan_body_in_range st i Hi) as [st' ->]. cbn. by apply IH.
Qed.

Lemma counts_consistent_initial : counts_consistent SaveMap.initial_state.
Proof. intros r. cbn. by rewrite !get0_empty. Qed.

Lemma counts_consistent_body (st st' : SaveMap.scan_state) (i : nat) :
  counts_consistent st → scan_body st i = Some st' → counts_consistent st'.
Proof.
  intros Hinv Hbody r. specialize (Hinv r).
  destruct (prime_list !! i) as [p|] eqn:Hp;
    [|by unfold SaveMap.scan_body in Hbody; rewrite Hp in Hbody].
  destruct (prime_list !! (i + 1)%nat) as [q|] eqn:Hq;
    [|by unfold SaveMap.scan_body in Hbody; rewrite Hp, Hq in Hbody].
  rewrite (scan_body_step st i p q Hp Hq) in Hbody.
  injection Hbody as <-. unfold step_of.
  destruct (LawI.failure_criterion _ _) as [[|]|]; cbn;
    rewrite ?get0_incr; repeat case_decide; subst; lia.
Qed.

Lemma counts_consistent_loop (indices : list nat) (st st' : SaveMap.scan_state) :
  counts_consistent st → scan_loop indices st = Some st' → counts_consistent st'.
Proof.
  revert st. induction indices as [|i indices IH]; intros st Hinv Hloop; cbn in Hloop.
  - by injection Hloop as <-.
  - destruct (scan_body st i) as [st1|] eqn:Hbody; [|done]. cbn in Hloop.
    eapply IH; [|done]. by eapply counts_consistent_body.
Qed.

(** The loader's check keeps every index of the scan in range. *)
Lemma scan_prefix_in_range (MAX_PRIME_PAIRS_TO_TEST n : nat) :
  (MAX_PRIME_PAIRS_TO_TEST + START_INDEX + 10 ≤ length prime_list)%nat →
  (n ≤ MAX_PRIME_PAIRS_TO_TEST)%nat →
  is_Some (SaveMap.scan_prefix START_INDEX prime_list prime_set n).
Proof.
  intros Hlen Hn. apply scan_loop_in_range, Forall_forall.
  intros i Hi%elem_of_seq. lia.
Qed.

End save_map_scan.

(** ** Prime sets *)

Lemma no_divisor_spec (n : Z) (fuel : nat) (d : Z) :
  no_divisor n fuel d = true ↔ ∀ e : Z, d ≤ e < d + Z.of_nat fuel → n `mod` e ≠ 0.
Proof.
  revert d. induction fuel as [|fuel IH]; intros d; cbn [no_divisor].
  - split; [|done]. intros _ e He. lia.
  - destruct (Z.eqb_spec (n `mod` d) 0) as [Hz|Hnz].
    + split; [done|]. intros Hall. destruct (Hall d); [lia|done].
    + rewrite IH. split; intros Hall e He.
      * destruct (decide (e = d)) as [->|]; [done|]. apply Hall. lia.
      * apply Hall. lia.
Qed.

Lemma is_primeb_spec (n : Z) : is_primeb n = true ↔ Z.prime n.
Proof.
  unfold is_primeb, Z.prime.
  rewrite andb_true_iff, Z.ltb_lt, no_divisor_spec.
  split; intros [Hn Hd]; (split; [done|]).
  - intros d Hlt Hdiv. apply (Hd d); [lia|]. apply Z.mod_divide; [lia|done].
  - intros d Hlt Hmod. apply (Hd d); [lia|]. apply Z.mod_divide; [lia|done].
Qed.

Lemma elem_of_primes_below (N n : Z) :
  n ∈ primes_below N ↔ 0 ≤ n < N ∧ Z.prime n.
Proof.
  unfold primes_below. rewrite list_elem_of_filter, elem_of_seqZ, is_primeb_spec.
  split; intros [? ?]; (split; [lia || done|lia || done]).
Qed.

Lemma represents_primes_below (N B : Z) :
  B < N → represents_primes (list_to_set (primes_below N)) B.
Proof.
  intros HB n Hn. rewrite elem_of_list_to_set, elem_of_primes_below.
  split; [by intros [_ ?]|]. intros Hp. split; [|done].
  pose proof (Z.prime_ge_2 n Hp). lia.
Qed.

(** ** The criterion decides by the nearest prime *)

Section criterion.
Variable prime_set : gset Z.
Variable anchor : Z.
Hypothesis anchor_nonneg : 0 ≤ anchor.
Hypothesis prime_set_ok : represents_primes prime_set (anchor + 2000).

Lemma hit_prime (k : Z) :
  1 ≤ k ≤ 2000 → hit prime_set anchor k ↔ Z.prime (anchor - k) ∨ Z.prime (anchor + k).
Proof.
  intros Hk. unfold hit.
  rewrite (prime_set_ok (anchor - k)), (prime_set_ok (anchor + k)) by lia. done.
Qed.

Lemma no_hit_prime (lo hi : Z) :
  1 ≤ lo → hi ≤ 2001 →
  no_hit prime_set anchor lo hi ↔
  ∀ j, lo ≤ j < hi → ¬ Z.prime (anchor - j) ∧ ¬ Z.prime (anchor + j).
Proof.
  intros Hlo Hhi. unfold no_hit. split; intros Hno j Hj;
    specialize (Hno j Hj);
    rewrite (prime_set_ok (anchor - j)), (prime_set_ok (anchor + j)) in * by lia;
    done.
Qed.

Lemma nearest_offset_unique (k k' : Z) :
  nearest_offset anchor k → nearest_offset anchor k' → k = k'.
Proof.
  intros (Hk & Hp & Hmin) (Hk' & Hp' & Hmin').
  destruct (Z.lt_trichotomy k k') as [Hlt|[->|Hgt]]; [|done|].
  - destruct (Hmin' k) as [? ?]; [lia|]. tauto.
  - destruct (Hmin k') as [? ?]; [lia|]. tauto.
Qed.

Lemma is_k_composite_spec (k : Z) :
  1 ≤ k ≤ 2000 →
  LawI.is_k_composite prime_set k = true ↔ k ≠ 1 ∧ ¬ Z.prime k.
Proof.
  intros Hk. unfold LawI.is_k_composite.
  rewrite andb_true_iff, negb_true_iff, bool_decide_eq_false, Z.gtb_gt.
  rewrite (prime_set_ok k) by lia. split; intros [? ?]; split; (lia || done).
Qed.

Lemma failure_criterion_exceeded :
  LawI.failure_criterion prime_set anchor = None ↔ radius_exceeded anchor.
Proof.
  unfold LawI.failure_criterion, radius_exceeded.
  destruct (min_distance_k_spec prime_set anchor) as [[-> Hno]|(Hk & Hhit & Hno)].
  - split; [|done]. intros _ j Hj.
    apply (proj1 (no_hit_prime 1 2001 ltac:(lia) ltac:(lia)) Hno); lia.
  - destruct (Z.eqb_spec (LawI.min_distance_k prime_set anchor) 0) as [?|_]; [lia|].
    split; [done|]. intros Hex. apply hit_prime in Hhit; [|done].
    destruct (Hex _ Hk). tauto.
Qed.

Lemma failure_criterion_composite :
  LawI.failure_criterion prime_set anchor = Some true ↔ composite_offset anchor.
Proof.
  unfold LawI.failure_criterion, composite_offset.
  destruct (min_distance_k_spec prime_set anchor) as [[-> Hno]|(Hk & Hhit & Hno)].
  - split; [done|]. intros (k & (Hk1 & Hp & _) & Hk2 & _).
    destruct (proj1 (no_hit_prime 1 2001 ltac:(lia) ltac:(lia)) Hno k); [lia|]. tauto.
  - destruct (Z.eqb_spec (LawI.min_distance_k prime_set anchor) 0) as [?|_]; [lia|].
    set (k := LawI.min_distance_k prime_set anchor) in *.
    assert (nearest_offset anchor k) as Hnear.
    { split; [lia|]. split; [by apply hit_prime|]. apply no_hit_prime; [lia|lia|done]. }
    split.
    + intros [= Hc]. apply is_k_composite_spec in Hc; [|done].
      exists k. split; [done|]. split; [lia|done].
    + intros (k' & Hnear' & _ & Hne & Hnp).
      rewrite <- (nearest_offset_unique k k' Hnear Hnear') in *.
      f_equal. apply is_k_composite_spec; done.
Qed.

End criterion.


(** ** Leaving the radius *)

Lemma min_distance_k_zero (prime_set : gset Z) (anchor_S_n : Z) :
  LawI.min_distance_k prime_set anchor_S_n = 0 ↔ no_hit prime_set anchor_S_n 1 2001.
Proof.
  destruct (min_distance_k_spec prime_set anchor_S_n) as [[Hk Hno]|(Hk & Hhit & Hno)].
  - done.
  - split; [intros ?; exfalso; lia|]. intros Hno'.
    destruct (Hno' (LawI.min_distance_k prime_set anchor_S_n)) as [? ?]; [lia|].
    by destruct Hhit.
Qed.

Lemma failure_criterion_zero (prime_set : gset Z) (anchor_S_n : Z) :
  LawI.min_distance_k prime_set anchor_S_n = 0 →
  LawI.failure_criterion prime_set anchor_S_n = None.
Proof. unfold LawI.failure_criterion. by intros ->. Qed.

(** What [d[residue][gap_category] += 1] does when the residue is a key. *)
Lemma incr2_Some (d : gmap Z (gmap string nat)) (residue : Z)
    (gap_category : string) (inner : gmap string nat) :
  d !! residue = Some inner →
  GapScan.incr2 d residue gap_category
  = Some (<[residue := incr inner gap_category]> d).
Proof. unfold GapScan.incr2. by intros ->. Qed.

(** C1 (as the code has it).  When no member of [prime_set] lies within the
    radius 2000 of the anchor of index [i], the iteration ends without an
    error and records no failure, but the anchor has already been counted:
    [anchor_counts] of its bucket is incremented, in the scan of
    [test-8_SAVE_MAP.py] and in the scan of [2D-Messiness-Map.py]. *)
Theorem radius_exceeded_counts_anchor_only
    (prime_list : list Z) (prime_set : gset Z) (i : nat) (p_n p_n_plus_1 : Z) :
  prime_list !! i = Some p_n →
  prime_list !! (i + 1)%nat = Some p_n_plus_1 →
  no_hit prime_set (p_n + p_n_plus_1) 1 2001 →
  (∀ st : SaveMap.scan_state,
     SaveMap.scan_body prime_list prime_set st i
     = Some {| SaveMap.total_law_I_failures := SaveMap.total_law_I_failures st;
               SaveMap.failure_counts := SaveMap.failure_counts st;
               SaveMap.anchor_counts :=
                 incr (SaveMap.anchor_counts st) ((p_n + p_n_plus_1) `mod` 210) |})
  ∧
  (∀ (st : GapScan.scan_state) (inner : gmap string nat),
     GapScan.anchor_map st !! ((p_n + p_n_plus_1) `mod` 30) = Some inner →
     GapScan.scan_body 30 prime_list prime_set st i
     = Some {| GapScan.total_law_I_failures := GapScan.total_law_I_failures st;
               GapScan.failure_map := GapScan.failure_map st;
               GapScan.anchor_map :=
                 <[(p_n + p_n_plus_1) `mod` 30 :=
                     incr inner (categorize_gap (p_n_plus_1 - p_n))]>
                   (GapScan.anchor_map st) |}).
Proof.
  intros Hp Hq Hno%min_distance_k_zero. split.
  - intros st. rewrite (scan_body_step _ _ st i _ _ Hp Hq).
    unfold step_of. by rewrite (failure_criterion_zero _ _ Hno).
  - intros st inner Hinner. unfold GapScan.scan_body.
    rewrite Hp, Hq. cbn. rewrite (incr2_Some _ _ _ _ Hinner). cbn.
    by rewrite Hno.
Qed.

Lemma radius_exceeded_counts_anchor_only_witness :
  SaveMap.scan_body primes_from_10007 (list_to_set primes_from_10007)
    SaveMap.initial_state 10
  = Some {| SaveMap.total_law_I_failures := 0;
            SaveMap.failure_counts := ∅;
            SaveMap.anchor_counts := incr ∅ ((10099 + 10103) `mod` 210) |}.
Proof.
  refine (proj1 (radius_exceeded_counts_anchor_only primes_from_10007
                   (list_to_set primes_from_10007) 10 10099 10103 _ _ _)
            SaveMap.initial_state).
  - reflexivity.
  - reflexivity.
  - apply min_distance_k_zero. vm_compute. reflexivity.
Defined.

(** C1 (as stated) fails: at index 10 of [primes_from_10007] the search
    leaves the radius, and the bucket 42 of the anchor 20202 has
    [anchor_count] 1 after the iteration, not 0. *)
Lemma skipped_index_still_counted :
  LawI.min_distance_k (list_to_set primes_from_10007) (10099 + 10103) = 0 ∧
  ∃ st' : SaveMap.scan_state,
    SaveMap.scan_body primes_from_10007 (list_to_set primes_from_10007)
      SaveMap.initial_state 10 = Some st' ∧
    get0 (SaveMap.anchor_counts SaveMap.initial_state) 42 = 0%nat ∧
    get0 (SaveMap.anchor_counts st') 42 = 1%nat ∧
    get0 (SaveMap.failure_counts st') 42 = 0%nat.
Proof.
  split; [vm_compute; reflexivity|].
  eexists. split; [vm_compute; reflexivity|].
  split; [reflexivity|]. split; vm_compute; reflexivity.
Qed.

(** ** The failure criterion inside the scan *)

Lemma records_failure_not_unchanged (st st' : SaveMap.scan_state) (residue : Z) :
  records_failure st st' residue → ¬ records_no_failure st st'.
Proof. intros [Ht _] [Ht' _]. lia. Qed.

Lemma failure_criterion_in (prime_set : gset Z) (anchor_S_n : Z) :
  LawI.failure_criterion prime_set anchor_S_n = Some true
  ↔ composite_offset_in prime_set anchor_S_n.
Proof.
  unfold LawI.failure_criterion, composite_offset_in. cbv zeta.
  destruct (min_distance_k_spec prime_set anchor_S_n) as [[Hk Hno]|(Hk & Hhit & Hno)].
  - rewrite Hk. cbn. split; [done|].
    intros (k & Hr & [Hl|Hu] & _); destruct (Hno k ltac:(lia)); done.
  - destruct (Z.eqb_spec (LawI.min_distance_k prime_set anchor_S_n) 0); [lia|].
    unfold LawI.is_k_composite.
    set (k := LawI.min_distance_k prime_set anchor_S_n) in *.
    split.
    + intros [= [Hgt Hnot]%andb_prop]. exists k.
      apply Z.gtb_lt in Hgt. apply negb_true_iff, bool_decide_eq_false in Hnot.
      split; [lia|done].
    + intros (k' & Hr & Hhit' & Hno' & Hnot).
      assert (k' = k) as ->.
      { destruct (Z.lt_trichotomy k' k) as [Hlt|[Heq|Hgt]]; [|done|].
        - destruct (Hno k' ltac:(lia)) as [? ?]. by destruct Hhit'.
        - destruct (Hno' k ltac:(lia)) as [? ?]. by destruct Hhit. }
      f_equal. apply andb_true_intro. split.
      * apply Z.gtb_lt. lia.
      * by apply negb_true_iff, bool_decide_eq_false.
Qed.

Lemma step_of_records (prime_set : gset Z) (st : SaveMap.scan_state) (anchor_S_n : Z) :
  (records_failure st (step_of prime_set st anchor_S_n) (anchor_S_n `mod` 210)
   ↔ LawI.failure_criterion prime_set anchor_S_n = Some true) ∧
  (records_no_failure st (step_of prime_set st anchor_S_n)
   ↔ LawI.failure_criterion prime_set anchor_S_n ≠ Some true).
Proof.
  unfold step_of. cbv zeta.
  destruct (LawI.failure_criterion prime_set anchor_S_n) as [[|]|].
  - split; split.
    + reflexivity.
    + intros _. split; reflexivity.
    + intros [Ht _]. cbn in Ht. lia.
    + intros Hne. by destruct Hne.
  - split; split.
    + intros [Ht _]. cbn in Ht. lia.
    + discriminate.
    + discriminate.
    + intros _. split; reflexivity.
  - split; split.
    + intros [Ht _]. cbn in Ht. lia.
    + discriminate.
    + discriminate.
    + intros _. split; reflexivity.
Qed.

(** C3 (as the code has it).  The iteration of a scanned index records a
    failure exactly when the least offset within the radius 2000 at which
    the loaded set has a member exists, is above 1 and is not itself in the
    set; the search leaves the radius exactly when the set has no member
    within it.  When the set answers like primality up to [anchor + 2000],
    and only then in general, this is the criterion on the primes: a failure
    exactly when the nearest-prime offset exists within the radius and is
    neither 1 nor prime, and nothing recorded when no prime lies within the
    radius. *)
Theorem failure_iff_nearest_offset_composite
    (prime_list : list Z) (prime_set : gset Z) (st : SaveMap.scan_state)
    (i : nat) (p_n p_n_plus_1 : Z) :
  prime_list !! i = Some p_n →
  prime_list !! (i + 1)%nat = Some p_n_plus_1 →
  ∃ st' : SaveMap.scan_state,
    SaveMap.scan_body prime_list prime_set st i = Some st' ∧
    (records_failure st st' ((p_n + p_n_plus_1) `mod` 210)
     ↔ composite_offset_in prime_set (p_n + p_n_plus_1)) ∧
    (records_no_failure st st' ↔ ¬ composite_offset_in prime_set (p_n + p_n_plus_1)) ∧
    (LawI.min_distance_k prime_set (p_n + p_n_plus_1) = 0
     ↔ no_hit prime_set (p_n + p_n_plus_1) 1 2001) ∧
    (0 ≤ p_n + p_n_plus_1 →
     represents_primes prime_set (p_n + p_n_plus_1 + 2000) →
     (records_failure st st' ((p_n + p_n_plus_1) `mod` 210)
      ↔ composite_offset (p_n + p_n_plus_1)) ∧
     (records_no_failure st st' ↔ ¬ composite_offset (p_n + p_n_plus_1)) ∧
     (LawI.min_distance_k prime_set (p_n + p_n_plus_1) = 0
      ↔ radius_exceeded (p_n + p_n_plus_1)) ∧
     (radius_exceeded (p_n + p_n_plus_1) → records_no_failure st st')).
Proof.
  intros Hp Hq. set (anchor := p_n + p_n_plus_1) in *.
  exists (step_of prime_set st anchor).
  split; [by apply scan_body_step|].
  destruct (step_of_records prime_set st anchor) as [Hfail Hnone].
  pose proof (failure_criterion_in prime_set anchor) as Hin.
  split; [by rewrite Hfail|]. split; [by rewrite Hnone, Hin|].
  split; [apply min_distance_k_zero|].
  intros Hpos Hrep.
  pose proof (failure_criterion_composite prime_set anchor Hpos Hrep) as Hcomp.
  pose proof (failure_criterion_exceeded prime_set anchor Hrep) as Hexc.
  split; [by rewrite Hfail|]. split; [by rewrite Hnone, Hcomp|].
  split.
  - rewrite <- Hexc. unfold LawI.failure_criterion.
    destruct (Z.eqb_spec (LawI.min_distance_k prime_set anchor) 0); split; done.
  - intros Hex%Hexc. apply Hnone. by rewrite Hex.
Qed.

Lemma failure_iff_nearest_offset_composite_witness :
  let prime_list := primes_below 2100 in
  ∃ st' : SaveMap.scan_state,
    SaveMap.scan_body prime_list (list_to_set prime_list) SaveMap.initial_state 10
    = Some st' ∧
    (records_failure SaveMap.initial_state st' ((31 + 37) `mod` 210)
     ↔ composite_offset (31 + 37)) ∧
    (records_no_failure SaveMap.initial_state st' ↔ ¬ composite_offset (31 + 37)) ∧
    (LawI.min_distance_k (list_to_set prime_list) (31 + 37) = 0
     ↔ radius_exceeded (31 + 37)) ∧
    (radius_exceeded (31 + 37) → records_no_failure SaveMap.initial_state st').
Proof.
  intros prime_list.
  destruct (failure_iff_nearest_offset_composite prime_list (list_to_set prime_list)
              SaveMap.initial_state 10 31 37) as (st' & Hst' & _ & _ & _ & Hprimes).
  - vm_compute. reflexivity.
  - vm_compute. reflexivity.
  - exists st'. split; [exact Hst'|]. apply Hprimes.
    + lia.
    + apply represents_primes_below. lia.
Defined.

(** C3 (as stated) fails: the first 27 primes are a list the loader accepts
    for 7 pairs from index 10.  At index 15 the anchor is 53 + 59 = 112; the
    set holds no 113, the search stops at 103, offset 9, and the iteration
    records a failure, although the nearest prime of 112 is 113, at offset
    1. *)
Lemma truncated_set_records_failure :
  load_primes_from_file 7 10 (Some first_27_primes)
  = Some (first_27_primes, list_to_set first_27_primes) ∧
  first_27_primes !! 15%nat = Some 53 ∧
  first_27_primes !! 16%nat = Some 59 ∧
  LawI.min_distance_k (list_to_set first_27_primes) (53 + 59) = 9 ∧
  (∀ st : SaveMap.scan_state,
     ∃ st' : SaveMap.scan_state,
       SaveMap.scan_body first_27_primes (list_to_set first_27_primes) st 15 = Some st' ∧
       records_failure st st' ((53 + 59) `mod` 210)) ∧
  Z.prime (53 + 59 + 1) ∧
  ¬ composite_offset (53 + 59).
Proof.
  assert (Z.prime 113) as H113 by (apply is_primeb_spec; vm_compute; reflexivity).
  split; [vm_compute; reflexivity|].
  split; [vm_compute; reflexivity|].
  split; [vm_compute; reflexivity|].
  split; [vm_compute; reflexivity|].
  split; [|split; [exact H113|]].
  - intros st. exists (step_of (list_to_set first_27_primes) st (53 + 59)).
    split.
    + apply scan_body_step; vm_compute; reflexivity.
    + apply step_of_records. vm_compute. reflexivity.
  - intros (k & (Hk1 & _ & Hleast) & _ & Hne & _).
    destruct (Hleast 1 ltac:(lia)) as [_ Hno]. by apply Hno.
Qed.

(** ** Failures never outnumber anchors *)

(** A failure is recorded only for the bucket whose anchor count the same
    iteration has just incremented. *)
Lemma failure_follows_anchor (prime_list : list Z) (prime_set : gset Z)
    (st st' : SaveMap.scan_state) (i : nat) (residue : Z) :
  SaveMap.scan_body prime_list prime_set st i = Some st' →
  get0 (SaveMap.failure_counts st') residue ≠ get0 (SaveMap.failure_counts st) residue →
  get0 (SaveMap.anchor_counts st') residue
  = S (get0 (SaveMap.anchor_counts st) residue).
Proof.
  intros Hbody Hchanged.
  destruct (prime_list !! i) as [p|] eqn:Hp;
    [|by unfold SaveMap.scan_body in Hbody; rewrite Hp in Hbody].
  destruct (prime_list !! (i + 1)%nat) as [q|] eqn:Hq;
    [|by unfold SaveMap.scan_body in Hbody; rewrite Hp, Hq in Hbody].
  rewrite (scan_body_step _ _ st i p q Hp Hq) in Hbody.
  injection Hbody as <-. revert Hchanged. unfold step_of.
  destruct (LawI.failure_criterion _ _) as [[|]|]; cbn;
    rewrite ?get0_incr; repeat case_decide; subst; done.
Qed.

(** C8.  When the loader's length check passes, every prefix of the scan
    runs without error and leaves [failure_counts[r] <= anchor_counts[r]]
    for every bucket [r]; in particular the counts from which the final map
    is computed satisfy it.  The next iteration keeps it, and changes the
    failure count of a bucket only together with its anchor count. *)
Theorem failure_count_le_anchor_count
    (MAX_PRIME_PAIRS_TO_TEST START_INDEX : nat) (prime_list : list Z)
    (prime_set : gset Z) (n : nat) :
  (MAX_PRIME_PAIRS_TO_TEST + START_INDEX + 10 ≤ length prime_list)%nat →
  (n ≤ MAX_PRIME_PAIRS_TO_TEST)%nat →
  ∃ st : SaveMap.scan_state,
    SaveMap.scan_prefix START_INDEX prime_list prime_set n = Some st ∧
    (∀ residue : Z,
       (get0 (SaveMap.failure_counts st) residue
        ≤ get0 (SaveMap.anchor_counts st) residue)%nat) ∧
    ∀ (i : nat) (st' : SaveMap.scan_state),
      SaveMap.scan_body prime_list prime_set st i = Some st' →
      ∀ residue : Z,
        (get0 (SaveMap.failure_counts st') residue
         ≤ get0 (SaveMap.anchor_counts st') residue)%nat ∧
        (get0 (SaveMap.failure_counts st') residue
         ≠ get0 (SaveMap.failure_counts st) residue →
         get0 (SaveMap.anchor_counts st') residue
         = S (get0 (SaveMap.anchor_counts st) residue)).
Proof.
  intros Hlen Hn.
  destruct (scan_prefix_in_range START_INDEX prime_list prime_set
              MAX_PRIME_PAIRS_TO_TEST n Hlen Hn) as [st Hst].
  assert (counts_consistent st) as Hinv.
  { eapply (counts_consistent_loop prime_list prime_set); [|exact Hst].
    apply counts_consistent_initial. }
  exists st. split; [exact Hst|]. split; [exact Hinv|].
  intros i st' Hbody residue. split.
  - exact (counts_consistent_body prime_list prime_set st st' i Hinv Hbody residue).
  - exact (failure_follows_anchor prime_list prime_set st st' i residue Hbody).
Qed.

Lemma failure_count_le_anchor_count_witness :
  ∃ st : SaveMap.scan_state,
    SaveMap.scan_prefix 10 first_primes (list_to_set first_primes) 1 = Some st ∧
    ∀ residue : Z,
      (get0 (SaveMap.failure_counts st) residue
       ≤ get0 (SaveMap.anchor_counts st) residue)%nat.
Proof.
  destruct (failure_count_le_anchor_count 1 10 first_primes
              (list_to_set first_primes) 1) as (st & Hst & Hinv & _).
  - vm_compute. lia.
  - lia.
  - exists st. split; [exact Hst|exact Hinv].
Defined.

(** ** The immunity overrides of the v2.1 engine *)

(** C10.  An anchor divisible by 2310 scores [0.0] and an anchor divisible
    by 210 but not by 2310 scores [0.0001], whatever the gap: both tests come
    before the lookup in the map, in this order. *)
Theorem immunity_overrides (anchor_sn gap_g_n : Z) :
  (anchor_sn `mod` 2310 = 0 →
   EngineV2_1.get_messiness_score_v2_1 anchor_sn gap_g_n = Finite (dec4 0)) ∧
  (anchor_sn `mod` 210 = 0 → anchor_sn `mod` 2310 ≠ 0 →
   EngineV2_1.get_messiness_score_v2_1 anchor_sn gap_g_n = Finite (dec4 1)).
Proof.
  unfold EngineV2_1.get_messiness_score_v2_1. split.
  - intros ->. reflexivity.
  - intros H210 H2310. rewrite H210.
    destruct (Z.eqb_spec (anchor_sn `mod` 2310) 0); [done|reflexivity].
Qed.

Lemma immunity_overrides_witness :
  EngineV2_1.get_messiness_score_v2_1 4620 6 = Finite (dec4 0) ∧
  EngineV2_1.get_messiness_score_v2_1 420 6 = Finite (dec4 1).
Proof.
  split.
  - apply (proj1 (immunity_overrides 4620 6)). reflexivity.
  - apply (proj2 (immunity_overrides 420 6)); [reflexivity|discriminate].
Defined.

(** The two override scores are different numbers. *)
Lemma immunity_scores_distinct : dec4 0 ≠ dec4 1.
Proof. intros [= H]. Qed.

(** ** Lookups before and after loading *)

Lemma v2_1_unpopulated (anchor_sn gap_g_n : Z) :
  anchor_sn `mod` 2310 ≠ 0 → anchor_sn `mod` 210 ≠ 0 →
  EngineV2_1.MESSINESS_MAP_V2_1 !! (anchor_sn `mod` 30, categorize_gap gap_g_n) = None →
  EngineV2_1.get_messiness_score_v2_1 anchor_sn gap_g_n = Inf.
Proof.
  intros H2310 H210 Hnone. unfold EngineV2_1.get_messiness_score_v2_1.
  destruct (Z.eqb_spec (anchor_sn `mod` 2310) 0); [done|].
  destruct (Z.eqb_spec (anchor_sn `mod` 210) 0); [done|].
  by rewrite Hnone.
Qed.

(** The lookup of a pair that is not a key: the immunity overrides answer
    first. *)
Lemma v2_1_missing_key (anchor_sn gap_g_n : Z) :
  EngineV2_1.MESSINESS_MAP_V2_1 !! (anchor_sn `mod` 30, categorize_gap gap_g_n) = None →
  EngineV2_1.get_messiness_score_v2_1 anchor_sn gap_g_n
  = if anchor_sn `mod` 2310 =? 0 then Finite (dec4 0)
    else if anchor_sn `mod` 210 =? 0 then Finite (dec4 1)
    else Inf.
Proof.
  intros Hnone. unfold EngineV2_1.get_messiness_score_v2_1.
  destruct (anchor_sn `mod` 2310 =? 0); [reflexivity|].
  destruct (anchor_sn `mod` 210 =? 0); [reflexivity|].
  cbv zeta. rewrite Hnone. reflexivity.
Qed.

(** C6 (as the code has it).  [get_vmod6_score] never raises: before the map
    is loaded it returns infinity, and on a loaded map it returns the stored
    score, or infinity for a bucket that is not a key.  The v2.1 engine,
    whose map is a literal of the module, returns infinity for a pair that
    is not a key. *)
Theorem lookup_never_raises (MESSINESS_MAP_V_MOD6 : option (gmap Z score))
    (anchor_sn : Z) :
  (∃ s : score,
     EngineV13.get_vmod6_score MESSINESS_MAP_V_MOD6 anchor_sn = Returns s) ∧
  (MESSINESS_MAP_V_MOD6 = None →
   EngineV13.get_vmod6_score MESSINESS_MAP_V_MOD6 anchor_sn = Returns Inf) ∧
  (∀ d : gmap Z score, MESSINESS_MAP_V_MOD6 = Some d →
     EngineV13.get_vmod6_score MESSINESS_MAP_V_MOD6 anchor_sn
     = Returns (default Inf (d !! (anchor_sn `mod` 6)))) ∧
  (∀ d : gmap Z score, MESSINESS_MAP_V_MOD6 = Some d →
     d !! (anchor_sn `mod` 6) = None →
     EngineV13.get_vmod6_score MESSINESS_MAP_V_MOD6 anchor_sn = Returns Inf) ∧
  (∀ gap_g_n : Z,
     anchor_sn `mod` 2310 ≠ 0 → anchor_sn `mod` 210 ≠ 0 →
     EngineV2_1.MESSINESS_MAP_V2_1 !! (anchor_sn `mod` 30, categorize_gap gap_g_n) = None →
     EngineV2_1.get_messiness_score_v2_1 anchor_sn gap_g_n = Inf).
Proof.
  destruct MESSINESS_MAP_V_MOD6 as [d|]; cbn.
  - split; [by eexists|]. split; [done|]. split; [by intros ? [= <-]|].
    split; [|apply v2_1_unpopulated]. intros ? [= <-] ->. done.
  - split; [by eexists|]. split; [done|]. split; [done|].
    split; [done|apply v2_1_unpopulated].
Qed.

(** C6 (as stated) fails: a lookup before loading returns infinity; it does
    not raise [EngineNotLoadedError]. *)
Lemma unloaded_lookup_returns_inf :
  EngineV13.get_vmod6_score None 68 = Returns Inf ∧
  EngineV13.get_vmod6_score None 68 ≠ Raises EngineNotLoadedError.
Proof. split; [reflexivity|discriminate]. Qed.

(** ** The length check of the loader *)

Lemma load_primes_None (MAX_PRIME_PAIRS_TO_TEST START_INDEX : nat) (prime_list : list Z) :
  load_primes_from_file MAX_PRIME_PAIRS_TO_TEST START_INDEX (Some prime_list) = None
  ↔ (length prime_list < MAX_PRIME_PAIRS_TO_TEST + START_INDEX + 10)%nat.
Proof.
  unfold load_primes_from_file.
  destruct (Nat.ltb_spec (length prime_list)
              (MAX_PRIME_PAIRS_TO_TEST + START_INDEX + 10)); split; (done || lia).
Qed.

(** The build writes no file exactly when the loader refuses the list. *)
Lemma run_mod210_None (MAX_PRIME_PAIRS_TO_TEST START_INDEX : nat) (prime_list : list Z) :
  SaveMap.run_mod210_residue_analysis MAX_PRIME_PAIRS_TO_TEST START_INDEX
    (Some prime_list) = None
  ↔ (length prime_list < MAX_PRIME_PAIRS_TO_TEST + START_INDEX + 10)%nat.
Proof.
  unfold SaveMap.run_mod210_residue_analysis.
  destruct (load_primes_from_file _ _ _) as [[l s]|] eqn:Hload; cbn.
  - assert (¬ (length prime_list
               < MAX_PRIME_PAIRS_TO_TEST + START_INDEX + 10)%nat) as Hlen.
    { intros Hlt%load_primes_None. congruence. }
    assert (l = prime_list) as ->.
    { unfold load_primes_from_file in Hload.
      destruct (_ <? _)%nat; congruence. }
    destruct (scan_prefix_in_range START_INDEX prime_list s
                MAX_PRIME_PAIRS_TO_TEST MAX_PRIME_PAIRS_TO_TEST) as [st ->];
      [lia|lia|]. cbn. split; [done|lia].
  - apply load_primes_None in Hload. split; [lia|done].
Qed.

(** C7 (as the code has it).  The build stops before the scan, and writes no
    file, exactly when the list is shorter than [start + count + 10]: the
    margin is the constant 10, not the search radius. *)
Theorem insufficient_data_margin
    (MAX_PRIME_PAIRS_TO_TEST START_INDEX : nat) (prime_list : list Z) :
  (load_primes_from_file MAX_PRIME_PAIRS_TO_TEST START_INDEX (Some prime_list) = None
   ↔ (length prime_list < START_INDEX + MAX_PRIME_PAIRS_TO_TEST + 10)%nat) ∧
  (SaveMap.run_mod210_residue_analysis MAX_PRIME_PAIRS_TO_TEST START_INDEX
     (Some prime_list) = None
   ↔ (length prime_list < START_INDEX + MAX_PRIME_PAIRS_TO_TEST + 10)%nat).
Proof.
  rewrite load_primes_None, run_mod210_None. split; lia.
Qed.

(** C7 (as stated) fails: with 21 primes, start 10 and count 1,
    [start + count + 2001] exceeds the length, yet the build runs and writes
    its file. *)
Lemma short_list_still_builds :
  (10 + 1 + (2000 + 1) > length first_primes)%nat ∧
  SaveMap.run_mod210_residue_analysis 1 10 (Some first_primes) ≠ None.
Proof.
  split; [cbn; lia|].
  intros Hnone%run_mod210_None.
  cbn in Hnone. lia.
Qed.

(** ** Saving and loading a map *)

Lemma py_int_py_str (k : Z) : py_int (py_str k) = Some k.
Proof.
  unfold py_int, py_str. rewrite NilZero.isi.
  - cbn. by rewrite DecimalZ.of_to.
  - destruct k; cbn; [done| |done].
    intros [= Hnil]. by apply DecimalPos.Unsigned.to_uint_nonnil in Hnil.
  - destruct k; cbn; [done|done|].
    intros [= Hnil]. by apply DecimalPos.Unsigned.to_uint_nonnil in Hnil.
Qed.

Lemma score_of_json_of_score (v : score) : score_of_json (json_of_score v) = v.
Proof. by destruct v. Qed.

(** Inserting the members of a list from left to right. *)
Lemma foldl_insert_list_to_map `{Countable K} {A} (l : list (K * A)) (m0 : gmap K A) :
  foldl (λ d kv, <[kv.1 := kv.2]> d) m0 l = list_to_map (reverse l) ∪ m0.
Proof.
  revert m0. induction l as [|[k v] l IH]; intros m0.
  - cbn. by rewrite (left_id_L ∅ (∪)).
  - rewrite reverse_cons, list_to_map_app. cbn [foldl fst snd].
    rewrite IH, <- (assoc_L (∪)). f_equal.
    rewrite list_to_map_cons, list_to_map_nil, insert_empty.
    apply insert_union_singleton_l.
Qed.

Lemma foldl_insert_map_to_list `{Countable K} {A} (m : gmap K A) :
  foldl (λ d kv, <[kv.1 := kv.2]> d) ∅ (map_to_list m) = m.
Proof.
  rewrite foldl_insert_list_to_map, (right_id_L ∅ (∪)).
  rewrite <- (list_to_map_to_list m) at 2.
  apply list_to_map_proper.
  - rewrite fmap_reverse, reverse_Permutation. apply NoDup_fst_map_to_list.
  - apply reverse_Permutation.
Qed.

Lemma load_map_json_dump (d : gmap Z score) :
  EngineV18.load_map (json_dump d) = Some d.
Proof.
  unfold EngineV18.load_map, json_dump.
  rewrite mapM_fmap_Some.
  - cbn. by rewrite foldl_insert_map_to_list.
  - intros [k v]. cbn. by rewrite py_int_py_str, score_of_json_of_score.
Qed.

(** C9.  Loading what [json.dump] wrote gives back the map: integer keys are
    written as decimal strings and parsed back by [int], and an infinite
    score is written as the token [Infinity] and read back as
    [float('inf')]; in particular the file written by the builder loads to
    the map the builder computed, and [load_engine_data] stores it. *)
Theorem json_round_trip (d : gmap Z score) :
  EngineV18.load_map (json_dump d) = Some d ∧
  (∀ k : Z, d !! k = Some Inf →
     (py_str k, JInfinity) ∈ json_dump d ∧ score_of_json JInfinity = Inf) ∧
  (∀ g : EngineV18.engine_globals,
     EngineV18.load_engine_data (Some (json_dump d)) (Some (json_dump d)) g
     = (true, {| EngineV18.MESSINESS_MAP_V_MOD6 := Some d;
                 EngineV18.MESSINESS_MAP_V_MOD210 := Some d |})).
Proof.
  split; [apply load_map_json_dump|]. split.
  - intros k Hk. split; [|done]. unfold json_dump.
    apply list_elem_of_fmap. exists (k, Inf). split; [done|].
    by apply elem_of_map_to_list.
  - intros g. unfold EngineV18.load_engine_data. cbn.
    by rewrite load_map_json_dump.
Qed.

(** ** The final map of [test-8_SAVE_MAP.py] *)

(** One value per key of a list, inserted from left to right. *)
Lemma lookup_foldl_insert `{Countable K} {A} (f : K → A) (l : list K)
    (m0 : gmap K A) (k : K) :
  foldl (λ m x, <[x := f x]> m) m0 l !! k
  = if decide (k ∈ l) then Some (f k) else m0 !! k.
Proof.
  revert m0. induction l as [|x l IH]; intros m0; cbn [foldl].
  - by rewrite decide_False by apply not_elem_of_nil.
  - rewrite IH. destruct (decide (k ∈ l)) as [Hin|Hnin].
    + by rewrite decide_True by (by right).
    + destruct (decide (k = x)) as [->|Hne].
      * rewrite decide_True by left. apply lookup_insert_eq.
      * rewrite decide_False by (intros [?|?]%elem_of_cons; done).
        by apply lookup_insert_ne.
Qed.

Lemma messiness_scores_v3_lookup (st : SaveMap.scan_state) (residue : Z) :
  SaveMap.messiness_scores_v3 st !! residue
  = if decide (0 ≤ residue < 210)
    then Some (failure_rate (get0 (SaveMap.failure_counts st) residue)
                 (get0 (SaveMap.anchor_counts st) residue))
    else None.
Proof.
  unfold SaveMap.messiness_scores_v3.
  rewrite (lookup_foldl_insert
             (λ r, failure_rate (get0 (SaveMap.failure_counts st) r)
                     (get0 (SaveMap.anchor_counts st) r))).
  destruct (decide (0 ≤ residue < 210)) as [Hr|Hr].
  - rewrite decide_True; [done|]. apply elem_of_seqZ. lia.
  - rewrite decide_False; [done|]. rewrite elem_of_seqZ. lia.
Qed.

Lemma messiness_scores_v3_dom (st : SaveMap.scan_state) :
  dom (SaveMap.messiness_scores_v3 st) = list_to_set (seqZ 0 210).
Proof.
  apply set_eq. intros r.
  rewrite elem_of_dom, messiness_scores_v3_lookup, elem_of_list_to_set, elem_of_seqZ.
  destruct (decide (0 ≤ r < 210)); split; intros Hr; try lia; try by eexists.
Qed.

Lemma messiness_scores_v3_size (st : SaveMap.scan_state) :
  size (SaveMap.messiness_scores_v3 st) = 210%nat.
Proof.
  rewrite <- size_dom, messiness_scores_v3_dom, size_list_to_set by apply NoDup_seqZ.
  by rewrite length_seqZ.
Qed.

Lemma failure_rate_zero_anchors (failures : nat) : failure_rate failures 0 = Inf.
Proof. done. Qed.

Lemma failure_rate_positive (failures total_anchors : nat) :
  (0 < total_anchors)%nat →
  failure_rate failures total_anchors
  = Finite (Qc_of_Z (Z.of_nat failures) / Qc_of_Z (Z.of_nat total_anchors)
            * Qc_of_Z 100)%Qc.
Proof.
  intros Hpos. unfold failure_rate.
  by destruct (Nat.ltb_spec 0 total_anchors); [|lia].
Qed.

Lemma one_of_two_is_50 :
  (Qc_of_Z (Z.of_nat 1) / Qc_of_Z (Z.of_nat 2) * Qc_of_Z 100)%Qc = Qc_of_Z 50.
Proof. apply Qc_is_canon. reflexivity. Qed.

Lemma stored_rate_lookup (st : SaveMap.scan_state) (residue : Z) :
  0 ≤ residue < 210 →
  (0 < get0 (SaveMap.anchor_counts st) residue)%nat →
  SaveMap.messiness_scores_v3 st !! residue
  = Some (Finite (Qc_of_Z (Z.of_nat (get0 (SaveMap.failure_counts st) residue))
                  / Qc_of_Z (Z.of_nat (get0 (SaveMap.anchor_counts st) residue))
                  * Qc_of_Z 100)%Qc).
Proof.
  intros Hr Hpos. rewrite messiness_scores_v3_lookup, decide_True by done.
  by rewrite failure_rate_positive.
Qed.

Lemma empty_bucket_lookup (st : SaveMap.scan_state) (residue : Z) :
  0 ≤ residue < 210 →
  get0 (SaveMap.anchor_counts st) residue = 0%nat →
  SaveMap.messiness_scores_v3 st !! residue = Some Inf.
Proof.
  intros Hr Hzero. rewrite messiness_scores_v3_lookup, decide_True by done.
  by rewrite Hzero.
Qed.

Lemma get_vmod210_score_loaded (g : EngineV18.engine_globals) (d : gmap Z score)
    (anchor_sn : Z) (s : score) :
  EngineV18.MESSINESS_MAP_V_MOD210 g = Some d →
  d !! (anchor_sn `mod` 210) = Some s →
  EngineV18.get_vmod210_score g anchor_sn = Returns s.
Proof. unfold EngineV18.get_vmod210_score. by intros -> ->. Qed.

(** ** The stored rate is a percentage *)

(** C4 (as the code has it).  For a bucket with [anchor_count > 0] the stored
    rate is [failure_count / anchor_count * 100]; with 2 anchors and 1
    failure the stored rate, and the score a lookup returns for an anchor of
    that bucket, is 50.0. *)
Theorem stored_rate_is_percentage (st : SaveMap.scan_state) (residue : Z) :
  0 ≤ residue < 210 →
  (0 < get0 (SaveMap.anchor_counts st) residue)%nat →
  SaveMap.messiness_scores_v3 st !! residue
  = Some (Finite (Qc_of_Z (Z.of_nat (get0 (SaveMap.failure_counts st) residue))
                  / Qc_of_Z (Z.of_nat (get0 (SaveMap.anchor_counts st) residue))
                  * Qc_of_Z 100)%Qc) ∧
  (get0 (SaveMap.anchor_counts st) residue = 2%nat →
   get0 (SaveMap.failure_counts st) residue = 1%nat →
   SaveMap.messiness_scores_v3 st !! residue = Some (Finite (Qc_of_Z 50)) ∧
   ∀ (g : EngineV18.engine_globals) (anchor_sn : Z),
     EngineV18.MESSINESS_MAP_V_MOD210 g = Some (SaveMap.messiness_scores_v3 st) →
     anchor_sn `mod` 210 = residue →
     EngineV18.get_vmod210_score g anchor_sn = Returns (Finite (Qc_of_Z 50))).
Proof.
  intros Hr Hpos. pose proof (stored_rate_lookup st residue Hr Hpos) as Hrate.
  split; [done|]. intros Ha Hf. rewrite Ha, Hf, one_of_two_is_50 in Hrate.
  split; [done|]. intros g anchor_sn Hg <-.
  by apply (get_vmod210_score_loaded g _ _ _ Hg).
Qed.

Lemma stored_rate_is_percentage_witness :
  SaveMap.messiness_scores_v3 counters_of_100_primes !! 112
  = Some (Finite (Qc_of_Z 50)).
Proof.
  refine (proj1 (proj2 (stored_rate_is_percentage counters_of_100_primes 112 _ _) _ _)).
  - lia.
  - vm_compute. lia.
  - vm_compute. reflexivity.
  - vm_compute. reflexivity.
Defined.

(** C4 (as stated) fails: scanning 46 pairs of the first 100 primes from
    index 10 puts 2 anchors into the bucket 112, 1 of them a failure, and the
    stored rate, which a lookup of the anchor 532 returns, is 50.0, not 0.5. *)
Lemma two_anchors_one_failure_scores_50 :
  SaveMap.scan_prefix 10 first_100_primes (list_to_set first_100_primes) 46
  = Some counters_of_100_primes ∧
  get0 (SaveMap.anchor_counts counters_of_100_primes) 112 = 2%nat ∧
  get0 (SaveMap.failure_counts counters_of_100_primes) 112 = 1%nat ∧
  SaveMap.messiness_scores_v3 counters_of_100_primes !! 112
  = Some (Finite (Qc_of_Z 50)) ∧
  EngineV18.get_vmod210_score
    {| EngineV18.MESSINESS_MAP_V_MOD6 := None;
       EngineV18.MESSINESS_MAP_V_MOD210 :=
         Some (SaveMap.messiness_scores_v3 counters_of_100_primes) |} 532
  = Returns (Finite (Qc_of_Z 50)) ∧
  Qc_of_Z 50 ≠ (Qc_of_Z 1 / Qc_of_Z 2)%Qc.
Proof.
  assert (SaveMap.messiness_scores_v3 counters_of_100_primes !! 112
          = Some (Finite (Qc_of_Z 50))) as Hrate.
  { rewrite stored_rate_lookup; [|lia|vm_compute; lia].
    replace (get0 (SaveMap.failure_counts counters_of_100_primes) 112)
      with 1%nat by (vm_compute; reflexivity).
    replace (get0 (SaveMap.anchor_counts counters_of_100_primes) 112)
      with 2%nat by (vm_compute; reflexivity).
    by rewrite one_of_two_is_50. }
  split.
  { destruct (scan_prefix_in_range 10 first_100_primes (list_to_set first_100_primes)
                46 46) as [st Hst]; [vm_compute; lia|lia|].
    unfold counters_of_100_primes. rewrite Hst. reflexivity. }
  split; [vm_compute; reflexivity|].
  split; [vm_compute; reflexivity|].
  split; [done|]. split.
  - eapply get_vmod210_score_loaded; [reflexivity|].
    change (532 `mod` 210) with 112. exact Hrate.
  - intros [= Heq].
Qed.

(** ** Buckets that were never observed *)

Lemma odd_residue_count_zero (residue : Z) :
  0 ≤ residue < 30 → Z.odd residue = true →
  EngineV1.FAILURE_COUNTS_MOD_30 !! residue = Some 0.
Proof.
  intros Hr Hodd.
  assert (forallb (λ r, implb (Z.odd r)
                     (bool_decide (EngineV1.FAILURE_COUNTS_MOD_30 !! r = Some 0)))
            (seqZ 0 30) = true) as Hall by (vm_compute; reflexivity).
  rewrite forallb_forall in Hall.
  specialize (Hall residue). rewrite Hodd in Hall. cbn [implb] in Hall.
  eapply bool_decide_eq_true_1, Hall, list_elem_of_In, elem_of_seqZ. lia.
Qed.

Lemma v1_odd_residue_scores_zero (anchor_sn : Z) :
  Z.odd (anchor_sn `mod` 30) = true → EngineV1.get_messiness_score anchor_sn = 0.
Proof.
  intros Hodd. unfold EngineV1.get_messiness_score.
  rewrite odd_residue_count_zero; [done| |done].
  apply Z.mod_pos_bound. lia.
Qed.

(** C5 (as the code has it).  The builder of [test-8_SAVE_MAP.py] gives a
    bucket without anchors the score infinity and a bucket with anchors but
    no failure the finite score 0.0.  For a (residue, gap category) pair
    that is not a key, the v2.1 engine returns infinity only when the anchor
    is not divisible by 210: the immunity overrides answer first, with 0.0
    for a multiple of 2310 and 0.0001 for another multiple of 210.  The v1.0
    engine scores by failure counts and returns 0 for every odd residue. *)
Theorem unobserved_bucket_scores :
  (∀ (st : SaveMap.scan_state) (residue : Z),
     0 ≤ residue < 210 →
     get0 (SaveMap.anchor_counts st) residue = 0%nat →
     SaveMap.messiness_scores_v3 st !! residue = Some Inf) ∧
  (∀ (st : SaveMap.scan_state) (residue : Z),
     0 ≤ residue < 210 →
     (0 < get0 (SaveMap.anchor_counts st) residue)%nat →
     get0 (SaveMap.failure_counts st) residue = 0%nat →
     SaveMap.messiness_scores_v3 st !! residue = Some (Finite (Qc_of_Z 0))) ∧
  (∀ anchor_sn gap_g_n : Z,
     EngineV2_1.MESSINESS_MAP_V2_1 !! (anchor_sn `mod` 30, categorize_gap gap_g_n) = None →
     EngineV2_1.get_messiness_score_v2_1 anchor_sn gap_g_n
     = if anchor_sn `mod` 2310 =? 0 then Finite (dec4 0)
       else if anchor_sn `mod` 210 =? 0 then Finite (dec4 1)
       else Inf) ∧
  (∀ anchor_sn gap_g_n : Z,
     EngineV2_1.MESSINESS_MAP_V2_1 !! (anchor_sn `mod` 30, categorize_gap gap_g_n) = None →
     EngineV2_1.get_messiness_score_v2_1 anchor_sn gap_g_n = Inf
     ↔ anchor_sn `mod` 210 ≠ 0) ∧
  (∀ anchor_sn : Z,
     Z.odd (anchor_sn `mod` 30) = true →
     EngineV1.get_messiness_score anchor_sn = 0).
Proof.
  split; [exact empty_bucket_lookup|]. split; [|split; [|split]].
  - intros st residue Hr Hpos Hzero.
    rewrite stored_rate_lookup, Hzero by done. by do 2 f_equal.
  - exact v2_1_missing_key.
  - intros anchor_sn gap_g_n Hnone. rewrite (v2_1_missing_key _ _ Hnone).
    destruct (Z.eqb_spec (anchor_sn `mod` 2310) 0) as [H2310|H2310].
    + split; [discriminate|]. intros H210. exfalso. apply H210.
      apply Z.mod_divide in H2310 as [c Hc]; [|lia].
      apply Z.mod_divide; [lia|]. exists (c * 11). lia.
    + destruct (Z.eqb_spec (anchor_sn `mod` 210) 0); split; (done || discriminate).
  - exact v1_odd_residue_scores_zero.
Qed.

(** C5 (as stated) fails: the v1.0 engine scores the anchor 31, whose residue
    1 modulo 30 is never observed, with 0, the same score the lookup returns
    by default; and the v2.1 engine scores the anchor 2310 with the gap 20
    by 0.0, although the pair (0, Medium) is not a key of its map. *)
Lemma odd_residue_scores_zero :
  EngineV1.get_messiness_score 31 = 0 ∧
  default 0 (EngineV1.FAILURE_COUNTS_MOD_30 !! (31 `mod` 30)) = 0 ∧
  default 0 ((∅ : gmap Z Z) !! (31 `mod` 30)) = 0 ∧
  EngineV2_1.MESSINESS_MAP_V2_1 !! (2310 `mod` 30, categorize_gap 20) = None ∧
  EngineV2_1.get_messiness_score_v2_1 2310 20 = Finite (dec4 0).
Proof. split; [|split; [|split; [|split]]]; vm_compute; reflexivity. Qed.

(** ** The compound scan *)

Section gap_scan.
Variable START_INDEX : nat.
Variable modulus : Z.
Variable prime_list : list Z.
Variable prime_set : gset Z.
Hypothesis modulus_pos : 0 < modulus.

Lemma empty_map_lookup (residue : Z) :
  GapScan.empty_map modulus !! residue
  = if decide (0 ≤ residue < modulus) then Some ∅ else None.
Proof.
  unfold GapScan.empty_map.
  rewrite (lookup_foldl_insert (λ _, ∅ : gmap string nat)).
  destruct (decide (0 ≤ residue < modulus)) as [Hr|Hr].
  - rewrite decide_True; [done|]. apply elem_of_seqZ. lia.
  - rewrite decide_False; [done|]. rewrite elem_of_seqZ. lia.
Qed.

Lemma keyed_empty_map : keyed modulus (GapScan.empty_map modulus).
Proof. intros r Hr. rewrite empty_map_lookup, decide_True by done. by eexists. Qed.

Lemma incr2_keyed (d d' : gmap Z (gmap string nat)) (residue : Z) (category : string) :
  keyed modulus d → GapScan.incr2 d residue category = Some d' → keyed modulus d'.
Proof.
  intros Hkeyed Hincr r Hr. unfold GapScan.incr2 in Hincr.
  destruct (d !! residue) as [inner|]; [|done]. cbn in Hincr.
  injection Hincr as <-. rewrite lookup_insert.
  case_decide; [by eexists|by apply Hkeyed].
Qed.

Lemma incr2_is_Some (d : gmap Z (gmap string nat)) (residue : Z) (category : string) :
  keyed modulus d → 0 ≤ residue < modulus →
  is_Some (GapScan.incr2 d residue category).
Proof.
  intros Hkeyed Hr. destruct (Hkeyed residue Hr) as [inner Hinner].
  rewrite (incr2_Some _ _ _ _ Hinner). by eexists.
Qed.

Lemma gap_scan_body_keyed (st : GapScan.scan_state) (i : nat) :
  state_keyed modulus st → (i + 1 < length prime_list)%nat →
  ∃ st' : GapScan.scan_state,
    GapScan.scan_body modulus prime_list prime_set st i = Some st' ∧
    state_keyed modulus st'.
Proof.
  intros [Hfm Ham] Hi.
  destruct (lookup_lt_is_Some_2 prime_list i) as [p Hp]; [lia|].
  destruct (lookup_lt_is_Some_2 prime_list (i + 1)) as [q Hq]; [lia|].
  assert (0 ≤ (p + q) `mod` modulus < modulus) as Hr
    by (apply Z.mod_pos_bound; lia).
  unfold GapScan.scan_body. rewrite Hp, Hq. cbn.
  destruct (incr2_is_Some (GapScan.anchor_map st) _ (categorize_gap (q - p)) Ham Hr)
    as [am' Ham'].
  rewrite Ham'. cbn.
  pose proof (incr2_keyed _ _ _ _ Ham Ham') as Hkeyed'.
  destruct (LawI.min_distance_k prime_set (p + q) =? 0).
  { eexists. split; [done|]. by split. }
  destruct (LawI.is_k_composite _ _).
  - destruct (incr2_is_Some (GapScan.failure_map st) _ (categorize_gap (q - p)) Hfm Hr)
      as [fm' Hfm'].
    rewrite Hfm'. cbn. eexists. split; [done|]. split; [|done].
    exact (incr2_keyed _ _ _ _ Hfm Hfm').
  - eexists. split; [done|]. by split.
Qed.

Lemma gap_scan_loop_keyed (indices : list nat) (st : GapScan.scan_state) :
  Forall (λ i, (i + 1 < length prime_list)%nat) indices →
  state_keyed modulus st →
  ∃ st' : GapScan.scan_state,
    GapScan.scan_loop modulus prime_list prime_set indices st = Some st' ∧
    state_keyed modulus st'.
Proof.
  revert st. induction indices as [|i indices IH]; intros st Hall Hkeyed; cbn.
  - by eexists.
  - inversion Hall as [|? ? Hi Hrest]; subst.
    destruct (gap_scan_body_keyed st i Hkeyed Hi) as (st1 & -> & Hkeyed1). cbn.
    by apply IH.
Qed.

Lemma gap_scan_prefix_keyed (MAX_PRIME_PAIRS_TO_TEST n : nat) :
  (MAX_PRIME_PAIRS_TO_TEST + START_INDEX + 10 ≤ length prime_list)%nat →
  (n ≤ MAX_PRIME_PAIRS_TO_TEST)%nat →
  ∃ st : GapScan.scan_state,
    GapScan.scan_prefix START_INDEX modulus prime_list prime_set n = Some st ∧
    state_keyed modulus st.
Proof.
  intros Hlen Hn. apply gap_scan_loop_keyed.
  - apply Forall_forall. intros i Hi%elem_of_seq. lia.
  - split; apply keyed_empty_map.
Qed.

End gap_scan.

(** ** The final map of [test-10_mod6-Gap-Analysis.py] *)

Lemma mod6_gap_lookup (st : GapScan.scan_state) :
  state_keyed 6 st →
  ∃ d : gmap (Z * string) score,
    Mod6Gap.messiness_scores_v_mod6_gap st = Some d ∧
    ∀ key : Z * string,
      d !! key
      = if decide (key ∈ mod6_gap_keys)
        then Some (failure_rate (get2 (GapScan.failure_map st) key.1 key.2)
                     (get2 (GapScan.anchor_map st) key.1 key.2))
        else None.
Proof.
  intros [Hfm Ham].
  destruct (Hfm 0) as [f0 Hf0]; [lia|]. destruct (Hfm 2) as [f2 Hf2]; [lia|].
  destruct (Hfm 4) as [f4 Hf4]; [lia|].
  destruct (Ham 0) as [a0 Ha0]; [lia|]. destruct (Ham 2) as [a2 Ha2]; [lia|].
  destruct (Ham 4) as [a4 Ha4]; [lia|].
  unfold Mod6Gap.messiness_scores_v_mod6_gap.
  change (seqZ 0 6) with [0; 1; 2; 3; 4; 5].
  cbn [Mod6Gap.add_residues]. unfold Mod6Gap.add_categories.
  rewrite Hf0, Ha0, Hf2, Ha2, Hf4, Ha4. cbn.
  eexists. split; [reflexivity|]. intros [r c].
  unfold get2. cbn [fst snd].
  destruct (decide ((r, c) ∈ mod6_gap_keys)) as [Hin|Hnin].
  - unfold mod6_gap_keys in Hin.
    repeat (apply elem_of_cons in Hin as [[= -> ->]|Hin]);
      try (by apply elem_of_nil in Hin);
      rewrite ?Hf0, ?Ha0, ?Hf2, ?Ha2, ?Hf4, ?Ha4; cbn [default];
      by simplify_map_eq.
  - rewrite !lookup_insert_ne; [apply lookup_empty|..];
      intros [= <- <-]; apply Hnin; unfold mod6_gap_keys; set_solver.
Qed.

Lemma mod6_gap_keys_size :
  size (list_to_set mod6_gap_keys : gset (Z * string)) = 9%nat.
Proof. vm_compute. reflexivity. Qed.

Lemma mod6_gap_dom (d : gmap (Z * string) score) (f : Z * string → score) :
  (∀ key, d !! key = if decide (key ∈ mod6_gap_keys) then Some (f key) else None) →
  dom d = list_to_set mod6_gap_keys.
Proof.
  intros Hd. apply set_eq. intros key.
  rewrite elem_of_dom, Hd, elem_of_list_to_set.
  destruct (decide (key ∈ mod6_gap_keys)); split; intros Hk; try done; try by eexists.
Qed.

Lemma json_dump_length (d : gmap Z score) : length (json_dump d) = size d.
Proof. unfold json_dump. by rewrite length_fmap, length_map_to_list. Qed.

(** ** The keys of the final maps *)

(** C2 (as the code has it).  The single-axis map of [test-8_SAVE_MAP.py] has
    exactly the 210 keys 0..209, as has the file written from it, and a
    bucket without anchors holds infinity.  The compound map of
    [test-10_mod6-Gap-Analysis.py] has exactly the 9 keys of the even
    residues 0, 2, 4 crossed with the three gap categories: the odd residues
    are left out, and a key without anchors holds infinity. *)
Theorem final_map_keys
    (MAX_PRIME_PAIRS_TO_TEST START_INDEX : nat) (prime_list : list Z) :
  (MAX_PRIME_PAIRS_TO_TEST + START_INDEX + 10 ≤ length prime_list)%nat →
  (∃ st : SaveMap.scan_state,
     SaveMap.scan_prefix START_INDEX prime_list (list_to_set prime_list)
       MAX_PRIME_PAIRS_TO_TEST = Some st ∧
     SaveMap.run_mod210_residue_analysis MAX_PRIME_PAIRS_TO_TEST START_INDEX
       (Some prime_list) = Some (json_dump (SaveMap.messiness_scores_v3 st)) ∧
     dom (SaveMap.messiness_scores_v3 st) = list_to_set (seqZ 0 210) ∧
     size (SaveMap.messiness_scores_v3 st) = 210%nat ∧
     length (json_dump (SaveMap.messiness_scores_v3 st)) = 210%nat ∧
     ∀ residue : Z,
       0 ≤ residue < 210 →
       get0 (SaveMap.anchor_counts st) residue = 0%nat →
       SaveMap.messiness_scores_v3 st !! residue = Some Inf) ∧
  (∃ (st : GapScan.scan_state) (d : gmap (Z * string) score),
     GapScan.scan_prefix START_INDEX 6 prime_list (list_to_set prime_list)
       MAX_PRIME_PAIRS_TO_TEST = Some st ∧
     Mod6Gap.messiness_scores_v_mod6_gap st = Some d ∧
     Mod6Gap.run_mod6_gap_analysis MAX_PRIME_PAIRS_TO_TEST START_INDEX
       (Some prime_list) = Some (Mod6Gap.string_key_map d) ∧
     dom d = list_to_set mod6_gap_keys ∧
     size d = 9%nat ∧
     (∀ (residue : Z) (category : string),
        Z.odd residue = true → d !! (residue, category) = None) ∧
     ∀ key : Z * string,
       key ∈ mod6_gap_keys →
       get2 (GapScan.anchor_map st) key.1 key.2 = 0%nat →
       d !! key = Some Inf).
Proof.
  intros Hlen. split.
  - destruct (scan_prefix_in_range START_INDEX prime_list (list_to_set prime_list)
                MAX_PRIME_PAIRS_TO_TEST MAX_PRIME_PAIRS_TO_TEST Hlen)
      as [st Hst]; [lia|].
    exists st. split; [done|]. split.
    { unfold SaveMap.run_mod210_residue_analysis, load_primes_from_file.
      destruct (Nat.ltb_spec (length prime_list)
                  (MAX_PRIME_PAIRS_TO_TEST + START_INDEX + 10)); [lia|].
      cbn. by rewrite Hst. }
    split; [apply messiness_scores_v3_dom|].
    split; [apply messiness_scores_v3_size|].
    split; [by rewrite json_dump_length, messiness_scores_v3_size|].
    apply empty_bucket_lookup.
  - destruct (gap_scan_prefix_keyed START_INDEX 6 prime_list (list_to_set prime_list)
                ltac:(lia) MAX_PRIME_PAIRS_TO_TEST MAX_PRIME_PAIRS_TO_TEST Hlen)
      as (st & Hst & Hkeyed); [lia|].
    destruct (mod6_gap_lookup st Hkeyed) as (d & Hd & Hlookup).
    exists st, d. split; [done|]. split; [done|]. split.
    { unfold Mod6Gap.run_mod6_gap_analysis, load_primes_from_file.
      destruct (Nat.ltb_spec (length prime_list)
                  (MAX_PRIME_PAIRS_TO_TEST + START_INDEX + 10)); [lia|].
      cbn. rewrite Hst. cbn. by rewrite Hd. }
    pose proof (mod6_gap_dom d _ Hlookup) as Hdom.
    split; [done|]. split; [by rewrite <- size_dom, Hdom, mod6_gap_keys_size|].
    split.
    + intros residue category Hodd. rewrite Hlookup, decide_False; [done|].
      unfold mod6_gap_keys. intros Hin.
      repeat (apply elem_of_cons in Hin as [[= -> ->]|Hin]); try done.
      by apply elem_of_nil in Hin.
    + intros key Hkey Hzero. by rewrite Hlookup, decide_True, Hzero.
Qed.

Lemma final_map_keys_witness :
  (∃ st : SaveMap.scan_state,
     SaveMap.scan_prefix 10 first_primes (list_to_set first_primes) 1 = Some st ∧
     size (SaveMap.messiness_scores_v3 st) = 210%nat) ∧
  (∃ (st : GapScan.scan_state) (d : gmap (Z * string) score),
     GapScan.scan_prefix 10 6 first_primes (list_to_set first_primes) 1 = Some st ∧
     Mod6Gap.messiness_scores_v_mod6_gap st = Some d ∧ size d = 9%nat).
Proof.
  destruct (final_map_keys 1 10 first_primes) as [Hsingle Hcompound].
  - vm_compute. lia.
  - split.
    + destruct Hsingle as (st & Hst & _ & _ & Hsize & _).
      exists st. split; [exact Hst|exact Hsize].
    + destruct Hcompound as (st & d & Hst & Hd & _ & _ & Hsize & _).
      exists st, d. split; [exact Hst|]. split; [exact Hd|exact Hsize].
Defined.

(** C2 (as stated) fails for the compound map: scanning one pair of the
    first 21 primes from index 10, the map of [test-10_mod6-Gap-Analysis.py]
    has 9 keys, not 3 * 6, and the bucket (1, Small), which has no anchor, is
    not a key. *)
Lemma compound_map_has_9_keys :
  ∃ d : gmap (Z * string) score,
    GapScan.scan_prefix 10 6 first_primes (list_to_set first_primes) 1
    = Some mod6_counters_of_first_primes ∧
    Mod6Gap.messiness_scores_v_mod6_gap mod6_counters_of_first_primes = Some d ∧
    size d = 9%nat ∧ size d ≠ (3 * 6)%nat ∧
    get2 (GapScan.anchor_map mod6_counters_of_first_primes) 1 "Small" = 0%nat ∧
    d !! (1, "Small") = None.
Proof.
  destruct (gap_scan_prefix_keyed 10 6 first_primes (list_to_set first_primes)
              ltac:(lia) 1 1) as (st & Hst & Hkeyed); [vm_compute; lia|lia|].
  assert (mod6_counters_of_first_primes = st) as Hsame
    by (unfold mod6_counters_of_first_primes; rewrite Hst; reflexivity).
  rewrite <- Hsame in Hst, Hkeyed. clear Hsame st.
  destruct (mod6_gap_lookup _ Hkeyed) as (d & Hd & Hlookup).
  assert (size d = 9%nat) as Hsize
    by (by rewrite <- size_dom, (mod6_gap_dom d _ Hlookup), mod6_gap_keys_size).
  exists d. split; [done|]. split; [done|]. split; [done|].
  split; [rewrite Hsize; lia|]. split; [vm_compute; reflexivity|].
  rewrite Hlookup. apply decide_False. unfold mod6_gap_keys. intros Hin.
  repeat (apply elem_of_cons in Hin as [[=]|Hin]). by apply elem_of_nil in Hin.
Qed.

(** * Further properties of the code *)

(** ** Totals of the counters *)

Lemma total_count_insert_fresh `{Countable K} (d : gmap K nat) (k : K) (v : nat) :
  d !! k = None → total_count (<[k := v]> d) = (v + total_count d)%nat.
Proof.
  intros Hnone. unfold total_count.
  rewrite map_fold_insert_L; [done| |done]. intros. lia.
Qed.

Lemma total_count_incr `{Countable K} (d : gmap K nat) (k : K) :
  total_count (incr d k) = S (total_count d).
Proof.
  unfold incr. destruct (d !! k) as [v|] eqn:Hk; cbn [default].
  - rewrite <- insert_delete_eq, total_count_insert_fresh by apply lookup_delete_eq.
    assert (total_count d = (v + total_count (delete k d))%nat) as ->.
    { rewrite <- (insert_delete_id d k v Hk) at 1.
      by rewrite total_count_insert_fresh by apply lookup_delete_eq. }
    unfold id. lia.
  - by rewrite total_count_insert_fresh.
Qed.

Lemma total_count_empty `{Countable K} : total_count (∅ : gmap K nat) = 0%nat.
Proof. apply map_fold_empty. Qed.

(** The totals that the scan of [test-8_SAVE_MAP.py] keeps, [seen] pairs
    after the start. *)
Lemma totals_step (prime_set : gset Z) (st : SaveMap.scan_state) (anchor_S_n : Z) :
  let st' := step_of prime_set st anchor_S_n in
  total_count (SaveMap.anchor_counts st') = S (total_count (SaveMap.anchor_counts st)) ∧
  (SaveMap.total_law_I_failures st = total_count (SaveMap.failure_counts st) →
   SaveMap.total_law_I_failures st' = total_count (SaveMap.failure_counts st')) ∧
  (SaveMap.total_law_I_failures st ≤ SaveMap.total_law_I_failures st'
   ≤ S (SaveMap.total_law_I_failures st))%nat.
Proof.
  unfold step_of. destruct (LawI.failure_criterion _ _) as [[|]|]; cbn;
    rewrite ?total_count_incr; (split; [done|split; [intros; lia|lia]]).
Qed.

Lemma totals_loop (prime_list : list Z) (prime_set : gset Z) (indices : list nat)
    (st st' : SaveMap.scan_state) :
  SaveMap.scan_loop prime_list prime_set indices st = Some st' →
  total_count (SaveMap.anchor_counts st')
  = (total_count (SaveMap.anchor_counts st) + length indices)%nat ∧
  (SaveMap.total_law_I_failures st = total_count (SaveMap.failure_counts st) →
   SaveMap.total_law_I_failures st' = total_count (SaveMap.failure_counts st')) ∧
  (SaveMap.total_law_I_failures st'
   ≤ SaveMap.total_law_I_failures st + length indices)%nat.
Proof.
  revert st. induction indices as [|i indices IH]; intros st Hloop; cbn in Hloop.
  - injection Hloop as <-. cbn. split; [lia|]. split; [done|lia].
  - destruct (SaveMap.scan_body prime_list prime_set st i) as [st1|] eqn:Hbody;
      [|done]. cbn in Hloop.
    destruct (prime_list !! i) as [p|] eqn:Hp;
      [|by unfold SaveMap.scan_body in Hbody; rewrite Hp in Hbody].
    destruct (prime_list !! (i + 1)%nat) as [q|] eqn:Hq;
      [|by unfold SaveMap.scan_body in Hbody; rewrite Hp, Hq in Hbody].
    rewrite (scan_body_step _ _ st i p q Hp Hq) in Hbody. injection Hbody as <-.
    destruct (totals_step prime_set st (p + q)) as (Ha & Hf & Hle).
    destruct (IH _ Hloop) as (Ha' & Hf' & Hle'). cbn [length].
    split; [lia|]. split; [auto|lia].
Qed.

(** X1.  After n passes of the scan of [test-8_SAVE_MAP.py] the anchor counts
    add up to n: every pair is counted in exactly one bucket, also a pair
    whose search exceeds the radius.  The total of Law I failures is the sum
    of the failure counts and is at most n. *)
Theorem scan_totals
    (MAX_PRIME_PAIRS_TO_TEST START_INDEX : nat) (prime_list : list Z)
    (prime_set : gset Z) (n : nat) :
  (MAX_PRIME_PAIRS_TO_TEST + START_INDEX + 10 ≤ length prime_list)%nat →
  (n ≤ MAX_PRIME_PAIRS_TO_TEST)%nat →
  ∃ st : SaveMap.scan_state,
    SaveMap.scan_prefix START_INDEX prime_list prime_set n = Some st ∧
    total_count (SaveMap.anchor_counts st) = n ∧
    SaveMap.total_law_I_failures st = total_count (SaveMap.failure_counts st) ∧
    (SaveMap.total_law_I_failures st ≤ n)%nat.
Proof.
  intros Hlen Hn.
  destruct (scan_prefix_in_range START_INDEX prime_list prime_set
              MAX_PRIME_PAIRS_TO_TEST n Hlen Hn) as [st Hst].
  exists st. split; [exact Hst|].
  destruct (totals_loop _ _ _ _ _ Hst) as (Ha & Hf & Hle).
  rewrite length_seq in Ha, Hle. cbn in Ha, Hle.
  rewrite (total_count_empty (K:=Z)) in Ha.
  split; [lia|]. split; [|lia].
  apply Hf. cbn. symmetry. apply (total_count_empty (K:=Z)).
Qed.

Lemma scan_totals_witness :
  ∃ st : SaveMap.scan_state,
    SaveMap.scan_prefix 10 first_primes (list_to_set first_primes) 1 = Some st ∧
    total_count (SaveMap.anchor_counts st) = 1%nat ∧
    SaveMap.total_law_I_failures st = total_count (SaveMap.failure_counts st) ∧
    (SaveMap.total_law_I_failures st ≤ 1)%nat.
Proof.
  apply (scan_totals 1 10 first_primes (list_to_set first_primes) 1).
  - vm_compute. lia.
  - lia.
Defined.

(** ** Stored rates are percentages between 0 and 100 *)

Lemma rate_bounds (failures total_anchors : nat) :
  (failures ≤ total_anchors)%nat → (0 < total_anchors)%nat →
  (Qc_of_Z 0 <= Qc_of_Z (Z.of_nat failures) / Qc_of_Z (Z.of_nat total_anchors)
                * Qc_of_Z 100)%Qc ∧
  (Qc_of_Z (Z.of_nat failures) / Qc_of_Z (Z.of_nat total_anchors) * Qc_of_Z 100
   <= Qc_of_Z 100)%Qc.
Proof.
  intros Hle Hpos. unfold Qcle, Qc_of_Z, Qcdiv, Qcmult, Qcinv. cbn [this Q2Qc].
  rewrite !Qred_correct.
  assert (0 < inject_Z (Z.of_nat total_anchors))%Q as Ht
    by (unfold Qlt; cbn; lia).
  assert (0 <= inject_Z (Z.of_nat failures))%Q as Hf
    by (unfold Qle; cbn; lia).
  assert (inject_Z (Z.of_nat failures) <= inject_Z (Z.of_nat total_anchors))%Q as Hft
    by (unfold Qle; cbn; lia).
  assert (0 <= inject_Z (Z.of_nat failures) * / inject_Z (Z.of_nat total_anchors))%Q
    as Hlo.
  { apply Qmult_le_0_compat; [done|]. apply Qinv_le_0_compat. by apply Qlt_le_weak. }
  assert (inject_Z (Z.of_nat failures) * / inject_Z (Z.of_nat total_anchors) <= 1)%Q
    as Hhi.
  { apply Qle_shift_div_r; [done|]. by rewrite Qmult_1_l. }
  split.
  - apply Qmult_le_0_compat; [done|]. unfold Qle; cbn; lia.
  - rewrite <- (Qmult_1_l (inject_Z 100)) at 2.
    apply Qmult_le_compat_r; [done|]. unfold Qle; cbn; lia.
Qed.

(** X2.  Every score stored by [test-8_SAVE_MAP.py] is infinity or a rate
    between 0 and 100. *)
Theorem stored_rates_between_0_and_100
    (MAX_PRIME_PAIRS_TO_TEST START_INDEX : nat) (prime_list : list Z)
    (prime_set : gset Z) :
  (MAX_PRIME_PAIRS_TO_TEST + START_INDEX + 10 ≤ length prime_list)%nat →
  ∃ st : SaveMap.scan_state,
    SaveMap.scan_prefix START_INDEX prime_list prime_set MAX_PRIME_PAIRS_TO_TEST
    = Some st ∧
    ∀ (residue : Z) (v : score),
      SaveMap.messiness_scores_v3 st !! residue = Some v →
      v = Inf ∨
      ∃ q : Qc, v = Finite q ∧ (Qc_of_Z 0 <= q)%Qc ∧ (q <= Qc_of_Z 100)%Qc.
Proof.
  intros Hlen.
  destruct (scan_prefix_in_range START_INDEX prime_list prime_set
              MAX_PRIME_PAIRS_TO_TEST MAX_PRIME_PAIRS_TO_TEST Hlen) as [st Hst];
    [lia|].
  exists st. split; [exact Hst|]. intros residue v.
  assert (counts_consistent st) as Hinv.
  { eapply (counts_consistent_loop prime_list prime_set); [|exact Hst].
    apply counts_consistent_initial. }
  rewrite messiness_scores_v3_lookup. case_decide; [|done]. intros [= <-].
  unfold failure_rate.
  destruct (Nat.ltb_spec 0 (get0 (SaveMap.anchor_counts st) residue)); [|by left].
  right. eexists. split; [reflexivity|]. by apply rate_bounds.
Qed.

Lemma stored_rates_between_0_and_100_witness :
  ∃ st : SaveMap.scan_state,
    SaveMap.scan_prefix 10 first_primes (list_to_set first_primes) 1 = Some st ∧
    ∀ (residue : Z) (v : score),
      SaveMap.messiness_scores_v3 st !! residue = Some v →
      v = Inf ∨
      ∃ q : Qc, v = Finite q ∧ (Qc_of_Z 0 <= q)%Qc ∧ (q <= Qc_of_Z 100)%Qc.
Proof.
  apply (stored_rates_between_0_and_100 1 10 first_primes (list_to_set first_primes)).
  vm_compute. lia.
Defined.

(** ** The nearest member of the prime set *)

Lemma min_distance_k_eq (prime_set : gset Z) (anchor_S_n k : Z) :
  1 ≤ k →
  LawI.min_distance_k prime_set anchor_S_n = k
  ↔ k ≤ 2000 ∧ hit prime_set anchor_S_n k ∧ no_hit prime_set anchor_S_n 1 k.
Proof.
  intros Hk.
  destruct (min_distance_k_spec prime_set anchor_S_n) as [[Hz Hno]|(Hr & Hhit & Hno)].
  - split; [intros; exfalso; lia|]. intros (Hk' & [Hl|Hu] & _).
    + destruct (Hno k); [lia|done].
    + destruct (Hno k); [lia|done].
  - set (r := LawI.min_distance_k prime_set anchor_S_n) in *. split.
    + intros <-. split; [lia|done].
    + intros (Hk' & Hhitk & Hnok).
      destruct (Z.lt_trichotomy r k) as [Hlt|[Heq|Hgt]]; [|done|].
      * destruct (Hnok r) as [? ?]; [lia|]. by destruct Hhit.
      * destruct (Hno k) as [? ?]; [lia|]. by destruct Hhitk.
Qed.

(** X3.  The bounded search returns 0 exactly when no offset from 1 to 2000
    reaches a member of the prime set on either side of the anchor, and
    otherwise the least such offset. *)
Theorem min_distance_k_least (prime_set : gset Z) (anchor_S_n k : Z) :
  (LawI.min_distance_k prime_set anchor_S_n = 0
   ↔ no_hit prime_set anchor_S_n 1 2001) ∧
  (1 ≤ k →
   LawI.min_distance_k prime_set anchor_S_n = k
   ↔ k ≤ 2000 ∧ hit prime_set anchor_S_n k ∧ no_hit prime_set anchor_S_n 1 k).
Proof. split; [apply min_distance_k_zero|apply min_distance_k_eq]. Qed.

(** X4.  The search reads the prime set only within 2000 of the anchor: two
    sets that agree there give the same distance. *)
Theorem search_depends_on_window (S1 S2 : gset Z) (anchor_S_n : Z) :
  (∀ n : Z, anchor_S_n - 2000 ≤ n ≤ anchor_S_n + 2000 → n ∈ S1 ↔ n ∈ S2) →
  LawI.min_distance_k S1 anchor_S_n = LawI.min_distance_k S2 anchor_S_n.
Proof.
  intros Hagree.
  assert (∀ lo hi, 1 ≤ lo → hi ≤ 2001 →
            no_hit S1 anchor_S_n lo hi ↔ no_hit S2 anchor_S_n lo hi) as Hno.
  { intros lo hi Hlo Hhi. unfold no_hit. split; intros Hn j Hj;
      specialize (Hn j Hj);
      rewrite (Hagree (anchor_S_n - j)), (Hagree (anchor_S_n + j)) in * by lia; done. }
  assert (∀ k, 1 ≤ k ≤ 2000 → hit S1 anchor_S_n k ↔ hit S2 anchor_S_n k) as Hhit.
  { intros k Hk. unfold hit.
    by rewrite (Hagree (anchor_S_n - k)), (Hagree (anchor_S_n + k)) by lia. }
  destruct (min_distance_k_spec S1 anchor_S_n) as [[Hz Hn]|(Hr & Hh & Hn)].
  - rewrite Hz. symmetry. apply min_distance_k_zero, Hno; [lia|lia|done].
  - symmetry. apply min_distance_k_eq; [lia|].
    split; [lia|]. split; [by apply Hhit|]. apply Hno; [lia|lia|done].
Qed.

Lemma search_depends_on_window_witness :
  LawI.min_distance_k {[ 7; 5000 ]} 10 = LawI.min_distance_k {[ 7 ]} 10.
Proof.
  apply (search_depends_on_window {[ 7; 5000 ]} {[ 7 ]} 10).
  intros n Hn. rewrite elem_of_union, !elem_of_singleton. lia.
Defined.

(** ** The final map of [2D-Messiness-Map.py] *)

(** Conditional insertions, one key per element of a list. *)
Lemma lookup_foldl_insert_if `{Countable K} {C A} (mk : C → K) (g : C → A)
    (P : C → bool) (l : list C) (m0 : gmap K A) (k : K) :
  (∀ c, c ∈ l → mk c ≠ k) →
  foldl (λ m c, if P c then <[mk c := g c]> m else m) m0 l !! k = m0 !! k.
Proof.
  revert m0. induction l as [|c l IH]; intros m0 Hk; cbn [foldl]; [done|].
  rewrite IH by (intros c' Hc'; apply Hk; by right).
  destruct (P c); [|done]. apply lookup_insert_ne, Hk. left.
Qed.

Lemma lookup_foldl_insert_if_key `{Countable K} `{EqDecision C} {A} (mk : C → K)
    `{!Inj (=) (=) mk} (g : C → A) (P : C → bool) (l : list C)
    (m0 : gmap K A) (c : C) :
  foldl (λ m c, if P c then <[mk c := g c]> m else m) m0 l !! mk c
  = if decide (c ∈ l ∧ P c = true) then Some (g c) else m0 !! mk c.
Proof.
  revert m0. induction l as [|x l IH]; intros m0; cbn [foldl].
  - rewrite decide_False; [done|]. intros [Hin _]. by apply not_elem_of_nil in Hin.
  - rewrite IH. destruct (decide (c ∈ l ∧ P c = true)) as [[Hin HP]|Hnot].
    + rewrite decide_True; [done|]. split; [by right|done].
    + destruct (decide (c = x)) as [->|Hne].
      * destruct (P x) eqn:HP.
        -- rewrite decide_True by (split; [left|done]). apply lookup_insert_eq.
        -- rewrite decide_False; [done|]. intros [_ ?]. done.
      * rewrite decide_False.
        -- destruct (P x); [|done]. apply lookup_insert_ne. intros Heq.
           by apply Hne, (inj mk).
        -- intros [[?|?]%elem_of_cons ?]; [done|]. by apply Hnot.
Qed.

Lemma add_categories_2D_lookup (fm am : gmap Z (gmap string nat)) (residue : Z)
    (m : gmap (Z * string) score) :
  is_Some (fm !! residue) → is_Some (am !! residue) →
  ∃ m' : gmap (Z * string) score,
    MessinessMap2D.add_categories fm am residue m = Some m' ∧
    ∀ key : Z * string,
      m' !! key
      = if decide (key.1 = residue ∧ key.2 ∈ three_categories ∧
                   (0 < get2 am key.1 key.2)%nat)
        then Some (failure_rate (get2 fm key.1 key.2) (get2 am key.1 key.2))
        else m !! key.
Proof.
  intros [f Hf] [a Ha]. unfold MessinessMap2D.add_categories.
  rewrite Ha. cbn -[foldl Nat.ltb]. destruct (decide (a = ∅)) as [->|Hne].
  - eexists. split; [done|]. intros [r c]. cbn.
    rewrite decide_False; [done|]. intros (-> & _ & Hpos).
    unfold get2 in Hpos. rewrite Ha in Hpos. cbn in Hpos.
    rewrite get0_empty in Hpos. lia.
  - rewrite Hf. cbn -[foldl Nat.ltb]. cbv zeta. eexists. split; [done|]. intros [r c]. cbn [fst snd].
    unfold get2. destruct (decide (r = residue)) as [->|Hr].
    + rewrite Hf, Ha. cbn [default].
      rewrite (lookup_foldl_insert_if_key (λ c, (residue, c))
                 (λ c, failure_rate (get0 f c) (get0 a c))
                 (λ c, (0 <? get0 a c)%nat)).
      fold three_categories.
      destruct (decide (c ∈ three_categories ∧ (0 <? get0 a c)%nat = true))
        as [[Hc Hpos]|Hnot].
      * apply Nat.ltb_lt in Hpos. by rewrite decide_True.
      * rewrite decide_False; [done|]. intros (_ & Hc & Hpos).
        apply Hnot. split; [done|]. by apply Nat.ltb_lt.
    + rewrite decide_False by (by intros [? _]).
      apply (lookup_foldl_insert_if (λ c, (residue, c))
               (λ c, failure_rate (get0 f c) (get0 a c))
               (λ c, (0 <? get0 a c)%nat)).
      intros c' _ [= ?]. done.
Qed.

Lemma add_residues_2D_lookup (fm am : gmap Z (gmap string nat)) (residues : list Z)
    (m : gmap (Z * string) score) :
  (∀ r, r ∈ residues → is_Some (fm !! r) ∧ is_Some (am !! r)) →
  ∃ m' : gmap (Z * string) score,
    MessinessMap2D.add_residues fm am residues m = Some m' ∧
    ∀ key : Z * string,
      m' !! key
      = if decide (key.1 ∈ residues ∧ key.2 ∈ three_categories ∧
                   (0 < get2 am key.1 key.2)%nat)
        then Some (failure_rate (get2 fm key.1 key.2) (get2 am key.1 key.2))
        else m !! key.
Proof.
  revert m. induction residues as [|r residues IH]; intros m Hkeys;
    cbn [MessinessMap2D.add_residues].
  - eexists. split; [done|]. intros key. rewrite decide_False; [done|].
    intros [Hin _]. by apply not_elem_of_nil in Hin.
  - destruct (Hkeys r) as [Hf Ha]; [left|].
    destruct (add_categories_2D_lookup fm am r m Hf Ha) as (m1 & -> & Hm1). cbn.
    destruct (IH m1) as (m' & -> & Hm'); [intros; apply Hkeys; by right|].
    eexists. split; [done|]. intros key. rewrite Hm', Hm1.
    destruct (decide (key.1 ∈ residues ∧ _)) as [(Hin & Hc & Hpos)|Hnot].
    + rewrite decide_True; [done|]. split; [by right|done].
    + destruct (decide (key.1 = r ∧ _)) as [(Heq & Hc & Hpos)|Hnot'].
      * rewrite decide_True; [done|]. split; [rewrite Heq; left|done].
      * rewrite decide_False; [done|]. intros ([?|?]%elem_of_cons & ? & ?).
        -- by apply Hnot'.
        -- by apply Hnot.
Qed.

(** X5.  The map built by [2D-Messiness-Map.py] has a key exactly for the
    pairs of a residue below 30 and a gap category that have an anchor; its
    values are the failure rates, and none is infinity. *)
Theorem messiness_map_2d_keys
    (MAX_PRIME_PAIRS_TO_TEST START_INDEX : nat) (prime_list : list Z) :
  (MAX_PRIME_PAIRS_TO_TEST + START_INDEX + 10 ≤ length prime_list)%nat →
  ∃ (st : GapScan.scan_state) (d : gmap (Z * string) score),
    GapScan.scan_prefix START_INDEX 30 prime_list (list_to_set prime_list)
      MAX_PRIME_PAIRS_TO_TEST = Some st ∧
    MessinessMap2D.messiness_scores st = Some d ∧
    (∀ (residue : Z) (category : string),
       is_Some (d !! (residue, category))
       ↔ 0 ≤ residue < 30 ∧ category ∈ three_categories ∧
         (0 < get2 (GapScan.anchor_map st) residue category)%nat) ∧
    (∀ (key : Z * string) (v : score),
       d !! key = Some v →
       v = failure_rate (get2 (GapScan.failure_map st) key.1 key.2)
             (get2 (GapScan.anchor_map st) key.1 key.2) ∧
       v ≠ Inf).
Proof.
  intros Hlen.
  destruct (gap_scan_prefix_keyed START_INDEX 30 prime_list (list_to_set prime_list)
              ltac:(lia) MAX_PRIME_PAIRS_TO_TEST MAX_PRIME_PAIRS_TO_TEST Hlen)
    as (st & Hst & Hfm & Ham); [lia|].
  destruct (add_residues_2D_lookup (GapScan.failure_map st) (GapScan.anchor_map st)
              (seqZ 0 30) ∅) as (d & Hd & Hlookup).
  { intros r Hr%elem_of_seqZ. split; [apply Hfm|apply Ham]; lia. }
  exists st, d. split; [exact Hst|]. split; [exact Hd|]. split.
  - intros residue category. rewrite Hlookup, lookup_empty. cbn [fst snd].
    case_decide as Hcase; split.
    + intros _. destruct Hcase as (Hr%elem_of_seqZ & ? & ?). split; [lia|done].
    + by eexists.
    + by intros [? ?].
    + intros (? & ? & ?). exfalso. apply Hcase.
      split; [apply elem_of_seqZ; lia|done].
  - intros key v. rewrite Hlookup, lookup_empty. case_decide as Hcase; [|done].
    intros [= <-]. split; [done|]. destruct Hcase as (_ & _ & Hpos).
    unfold failure_rate. by destruct (Nat.ltb_spec 0 (get2 (GapScan.anchor_map st) key.1 key.2)); [|lia].
Qed.

Lemma messiness_map_2d_keys_witness :
  ∃ (st : GapScan.scan_state) (d : gmap (Z * string) score),
    GapScan.scan_prefix 10 30 first_primes (list_to_set first_primes) 1 = Some st ∧
    MessinessMap2D.messiness_scores st = Some d ∧
    (∀ (residue : Z) (category : string),
       is_Some (d !! (residue, category))
       ↔ 0 ≤ residue < 30 ∧ category ∈ three_categories ∧
         (0 < get2 (GapScan.anchor_map st) residue category)%nat) ∧
    (∀ (key : Z * string) (v : score),
       d !! key = Some v →
       v = failure_rate (get2 (GapScan.failure_map st) key.1 key.2)
             (get2 (GapScan.anchor_map st) key.1 key.2) ∧
       v ≠ Inf).
Proof.
  apply (messiness_map_2d_keys 1 10 first_primes).
  vm_compute. lia.
Defined.

(** ** Compound keys written and read back *)

Lemma split_free (sep : ascii) (s : string) :
  free_of sep s → Mod6GapEngine.split sep s = [s].
Proof.
  induction s as [|c s IH]; cbn -[Ascii.eqb]; [done|]. intros [Hc Hs].
  destruct (Ascii.eqb_spec c sep); [done|]. by rewrite IH.
Qed.

Lemma split_app_sep (sep : ascii) (s1 s2 : string) :
  free_of sep s1 →
  Mod6GapEngine.split sep (s1 +:+ String sep s2) = s1 :: Mod6GapEngine.split sep s2.
Proof.
  induction s1 as [|c s1 IH].
  - intros _. change (EmptyString +:+ String sep s2) with (String sep s2).
    cbn -[Ascii.eqb]. by rewrite Ascii.eqb_refl.
  - intros [Hc Hs].
    change (String c s1 +:+ String sep s2) with (String c (s1 +:+ String sep s2)).
    cbn -[Ascii.eqb]. destruct (Ascii.eqb_spec c sep); [done|]. by rewrite IH.
Qed.

Lemma uint_free_of_comma (d : Decimal.uint) :
  free_of "," (NilEmpty.string_of_uint d).
Proof. induction d; cbn; (done || (split; [discriminate|done])). Qed.

Lemma py_str_free_of_comma (k : Z) : free_of "," (py_str k).
Proof.
  unfold py_str. destruct (Z.to_int k) as [d|d]; cbn.
  - destruct d; try apply uint_free_of_comma. cbn. split; [discriminate|done].
  - split; [discriminate|]. destruct d; try apply uint_free_of_comma.
    cbn. split; [discriminate|done].
Qed.

Lemma load_members_written (l : list ((Z * string) * score))
    (rest : json_object) (d : gmap (Z * string) score) :
  Forall (λ kv, free_of "," kv.1.2) l →
  Mod6GapEngine.load_members
    (((λ kv, (py_str kv.1.1 +:+ "," +:+ kv.1.2, json_of_score kv.2)) <$> l) ++ rest) d
  = Mod6GapEngine.load_members rest (foldl (λ d kv, <[kv.1 := kv.2]> d) d l).
Proof.
  revert d. induction l as [|[[r c] v] l IH]; intros d Hfree; [done|].
  inversion Hfree as [|? ? Hc Hl]; subst. cbn in Hc.
  cbn [fmap list_fmap app Mod6GapEngine.load_members fst snd foldl].
  change (py_str r +:+ "," +:+ c) with (py_str r +:+ String "," c).
  rewrite split_app_sep by apply py_str_free_of_comma.
  rewrite split_free by done. rewrite py_int_py_str, score_of_json_of_score.
  by apply IH.
Qed.

Lemma written_categories_free (d : gmap (Z * string) score) :
  (∀ (residue : Z) (category : string),
     is_Some (d !! (residue, category)) → free_of "," category) →
  Forall (λ kv : (Z * string) * score, free_of "," kv.1.2) (map_to_list d).
Proof.
  intros Hfree. apply Forall_forall.
  intros [[r c] v] Hin%elem_of_map_to_list. cbn. apply (Hfree r c). by eexists.
Qed.

(** The file written by [test-10_mod6-Gap-Analysis.py] is read back by
    [load_engine_data] of [PLR_conjecture_v_mod6_gap.py] as the same map,
    whenever no gap category contains a comma. *)
Lemma load_string_key_map (d : gmap (Z * string) score)
    (g : option (gmap (Z * string) score)) :
  (∀ (residue : Z) (category : string),
     is_Some (d !! (residue, category)) → free_of "," category) →
  Mod6GapEngine.load_engine_data (Some (Mod6Gap.string_key_map d)) g
  = (true, Some d).
Proof.
  intros Hfree. unfold Mod6GapEngine.load_engine_data, Mod6Gap.string_key_map.
  rewrite <- (app_nil_r (_ <$> map_to_list d)).
  rewrite load_members_written by by apply written_categories_free.
  cbn. by rewrite foldl_insert_map_to_list.
Qed.

(** X7.  A key without a comma stops [load_engine_data] of
    [PLR_conjecture_v_mod6_gap.py]: the flag is [False], and the global holds
    the members read before that key, neither [None] nor its former value.
    The members of a loaded JSON object have distinct keys. *)
Theorem malformed_key_keeps_partial_map (d : gmap (Z * string) score)
    (k_str : string) (v : json_number) (rest : json_object)
    (g : option (gmap (Z * string) score)) :
  NoDup ((Mod6Gap.string_key_map d ++ (k_str, v) :: rest).*1) →
  (∀ (residue : Z) (category : string),
     is_Some (d !! (residue, category)) → free_of "," category) →
  free_of "," k_str →
  Mod6GapEngine.load_engine_data
    (Some (Mod6Gap.string_key_map d ++ (k_str, v) :: rest)) g
  = (false, Some d).
Proof.
  intros _ Hfree Hk. unfold Mod6GapEngine.load_engine_data, Mod6Gap.string_key_map.
  rewrite load_members_written by by apply written_categories_free.
  cbn [Mod6GapEngine.load_members]. rewrite split_free by done.
  by rewrite foldl_insert_map_to_list.
Qed.

Lemma malformed_key_keeps_partial_map_witness :
  Mod6GapEngine.load_engine_data
    (Some (Mod6Gap.string_key_map {[ (4, "Large") := Inf ]}
           ++ [("4", JInfinity); ("2,Small", JInfinity)])) None
  = (false, Some {[ (4, "Large") := Inf ]}).
Proof.
  apply (malformed_key_keeps_partial_map {[ (4, "Large") := Inf ]} "4" JInfinity
           [("2,Small", JInfinity)] None).
  - apply (bool_decide_eq_true_1 _). vm_compute. reflexivity.
  - intros residue category [v Hv].
    apply lookup_singleton_Some in Hv as [[= <- <-] _]. cbn. repeat split; discriminate.
  - cbn. repeat split; discriminate.
Defined.

(** ** The stable sort *)

Section py_sort_facts.
Context {A K : Type}.
Variable ltb : K → K → bool.
Variable key : A → K.

Lemma sort_insert_perm (x : A) (l : list A) : sort_insert ltb key x l ≡ₚ x :: l.
Proof.
  induction l as [|y l IH]; cbn; [done|].
  destruct (ltb (key x) (key y)); [done|]. rewrite IH. apply Permutation_swap.
Qed.

Lemma py_sort_snoc (l : list A) (x : A) :
  py_sort ltb key (l ++ [x]) = sort_insert ltb key x (py_sort ltb key l).
Proof. unfold py_sort. by rewrite foldl_snoc. Qed.

Lemma py_sort_perm (l : list A) : py_sort ltb key l ≡ₚ l.
Proof.
  induction l as [|x l IH] using rev_ind; [done|].
  rewrite py_sort_snoc, sort_insert_perm, IH.
  by rewrite Permutation_app_comm.
Qed.


Lemma py_sort_elem_of (l : list A) (x : A) : x ∈ py_sort ltb key l ↔ x ∈ l.
Proof. by rewrite py_sort_perm. Qed.

(** An element that is not strictly below any other goes to the end. *)
Lemma sort_insert_last (x : A) (l : list A) :
  (∀ y, y ∈ l → ltb (key x) (key y) = false) →
  sort_insert ltb key x l = l ++ [x].
Proof.
  induction l as [|y l IH]; intros Hge; cbn; [done|].
  rewrite Hge by left. f_equal. apply IH. intros z Hz. apply Hge. by right.
Qed.

(** Stability: a list without a strict inversion is left as it is. *)
Lemma py_sort_no_inversion (l : list A) :
  (∀ i j x y, (i < j)%nat → l !! i = Some x → l !! j = Some y →
     ltb (key y) (key x) = false) →
  py_sort ltb key l = l.
Proof.
  induction l as [|x l IH] using rev_ind; intros Hinv; [done|].
  rewrite py_sort_snoc, IH.
  - apply sort_insert_last. intros y [i Hi]%list_elem_of_lookup.
    apply (Hinv i (length l) y x).
    + by apply lookup_lt_Some in Hi.
    + by rewrite lookup_app_l by by apply lookup_lt_Some in Hi.
    + by rewrite list_lookup_middle.
  - intros i j y z Hij Hi Hj. apply (Hinv i j y z Hij).
    + by rewrite lookup_app_l by by apply lookup_lt_Some in Hi.
    + by rewrite lookup_app_l by by apply lookup_lt_Some in Hj.
Qed.

(** The order facts that make the first element of the sorted list a least
    one: [ltb] is asymmetric and its complement is transitive. *)
Hypothesis ltb_asym : ∀ a b, ltb a b = true → ltb b a = false.
Hypothesis ltb_neg_trans : ∀ a b c, ltb b a = false → ltb c b = false → ltb c a = false.

Lemma ltb_irrefl (a : K) : ltb a a = false.
Proof. destruct (ltb a a) eqn:Ha; [|done]. by rewrite (ltb_asym _ _ Ha) in Ha. Qed.

Lemma sort_insert_head_least (x : A) (l : list A) (h : A) :
  (∀ h0, head l = Some h0 → ∀ z, z ∈ l → ltb (key z) (key h0) = false) →
  head (sort_insert ltb key x l) = Some h →
  ∀ z, z ∈ x :: l → ltb (key z) (key h) = false.
Proof.
  destruct l as [|y l]; cbn.
  - intros _ [= <-] z Hz. apply list_elem_of_singleton in Hz as ->. apply ltb_irrefl.
  - intros Hy. specialize (Hy y eq_refl).
    destruct (ltb (key x) (key y)) eqn:Hxy; cbn; intros [= <-] z Hz.
    + apply elem_of_cons in Hz as [->|Hz]; [apply ltb_irrefl|].
      apply (ltb_neg_trans _ (key y)); [by apply ltb_asym|by apply Hy].
    + apply elem_of_cons in Hz as [->|Hz]; [done|]. by apply Hy.
Qed.

Lemma py_sort_head_least (l : list A) (h : A) :
  head (py_sort ltb key l) = Some h →
  h ∈ l ∧ ∀ z, z ∈ l → ltb (key z) (key h) = false.
Proof.
  intros Hh. split.
  { apply py_sort_elem_of. by apply head_Some_elem_of. }
  revert h Hh. induction l as [|x l IH] using rev_ind; intros h Hh; [done|].
  rewrite py_sort_snoc in Hh. intros z Hz.
  apply (sort_insert_head_least x (py_sort ltb key l) h).
  - intros h0 Hh0 z' Hz'. apply (IH h0 Hh0). by apply py_sort_elem_of.
  - done.
  - apply elem_of_app in Hz as [Hz|Hz].
    + right. by apply py_sort_elem_of.
    + apply list_elem_of_singleton in Hz as ->. left.
Qed.

End py_sort_facts.

(** ** The order of the scores *)

Lemma score_eqb_eq (a b : score) : score_eqb a b = true ↔ a = b.
Proof.
  destruct a as [x|], b as [y|]; cbn; try (split; done || discriminate).
  rewrite bool_decide_eq_true. split; [by intros ->|by intros [= ->]].
Qed.

Lemma score_ltb_irrefl (a : score) : score_ltb a a = false.
Proof.
  destruct a as [x|]; cbn; [|done]. apply bool_decide_eq_false.
  intros Hlt. by apply (Qclt_not_eq x x).
Qed.

Lemma score_ltb_trans (a b c : score) :
  score_ltb a b = true → score_ltb b c = true → score_ltb a c = true.
Proof.
  destruct a as [x|], b as [y|], c as [z|]; cbn; try done.
  rewrite !bool_decide_eq_true. apply Qclt_trans.
Qed.

Lemma score_trichotomy (a b : score) :
  score_ltb a b = true ∨ a = b ∨ score_ltb b a = true.
Proof.
  destruct a as [x|], b as [y|]; cbn; auto.
  rewrite !bool_decide_eq_true.
  destruct (Qc_dec x y) as [[?|?]| ->]; auto.
Qed.

Lemma score_ltb_asym (a b : score) :
  score_ltb a b = true → score_ltb b a = false.
Proof.
  intros Hab. destruct (score_ltb b a) eqn:Hba; [|done].
  by rewrite <- (score_ltb_irrefl a), (score_ltb_trans a b a Hab Hba).
Qed.

Lemma score_ltb_neg_trans (a b c : score) :
  score_ltb b a = false → score_ltb c b = false → score_ltb c a = false.
Proof.
  intros Hba Hcb. destruct (score_ltb c a) eqn:Hca; [|done].
  destruct (score_trichotomy a b) as [Hab|[->|Hba']]; [|congruence|congruence].
  by rewrite (score_ltb_trans c a b Hca Hab) in Hcb.
Qed.

(** [tuple_ltb] is the lexicographic order. *)
Lemma tuple_ltb_spec (a b : score * score * Z) :
  AdaptiveV18.tuple_ltb a b = true ↔
  score_ltb a.1.1 b.1.1 = true ∨
  (a.1.1 = b.1.1 ∧
   (score_ltb a.1.2 b.1.2 = true ∨ (a.1.2 = b.1.2 ∧ a.2 < b.2))).
Proof.
  destruct a as [[a1 a2] a3], b as [[b1 b2] b3]. unfold AdaptiveV18.tuple_ltb. cbn.
  destruct (score_eqb a1 b1) eqn:H1; cbn.
  - apply score_eqb_eq in H1 as ->. rewrite score_ltb_irrefl.
    destruct (score_eqb a2 b2) eqn:H2; cbn.
    + apply score_eqb_eq in H2 as ->. rewrite score_ltb_irrefl, Z.ltb_lt.
      intuition congruence.
    + assert (a2 ≠ b2) by (intros ?%score_eqb_eq; congruence).
      intuition congruence.
  - assert (a1 ≠ b1) by (intros ?%score_eqb_eq; congruence).
    intuition congruence.
Qed.

Lemma tuple_trichotomy (a b : score * score * Z) :
  AdaptiveV18.tuple_ltb a b = true ∨ a = b ∨ AdaptiveV18.tuple_ltb b a = true.
Proof.
  rewrite !tuple_ltb_spec. destruct a as [[a1 a2] a3], b as [[b1 b2] b3]. cbn.
  destruct (score_trichotomy a1 b1) as [?|[->|?]];
    [by left; left| |by right; right; left].
  destruct (score_trichotomy a2 b2) as [?|[->|?]].
  - left. right. split; [done|]. by left.
  - destruct (Z.lt_trichotomy a3 b3) as [?|[->|?]].
    + left. right. split; [done|]. right. by split.
    + right. by left.
    + right. right. right. split; [done|]. right. by split.
  - right. right. right. split; [done|]. by left.
Qed.

Lemma tuple_ltb_trans (a b c : score * score * Z) :
  AdaptiveV18.tuple_ltb a b = true → AdaptiveV18.tuple_ltb b c = true →
  AdaptiveV18.tuple_ltb a c = true.
Proof.
  rewrite !tuple_ltb_spec. destruct a as [[a1 a2] a3], b as [[b1 b2] b3],
    c as [[c1 c2] c3]. cbn.
  intros [H1|[-> [H2|[-> H3]]]] [H1'|[<- [H2'|[<- H3']]]];
    first
      [ left; by eauto using score_ltb_trans
      | right; split; [done|];
        first [ left; by eauto using score_ltb_trans
              | right; split; [done|lia] ] ].
Qed.

Lemma tuple_ltb_irrefl (a : score * score * Z) : AdaptiveV18.tuple_ltb a a = false.
Proof.
  destruct (AdaptiveV18.tuple_ltb a a) eqn:Ha; [|done].
  apply tuple_ltb_spec in Ha as [H1|[_ [H2|[_ H3]]]].
  - by rewrite score_ltb_irrefl in H1.
  - by rewrite score_ltb_irrefl in H2.
  - lia.
Qed.

Lemma tuple_ltb_asym (a b : score * score * Z) :
  AdaptiveV18.tuple_ltb a b = true → AdaptiveV18.tuple_ltb b a = false.
Proof.
  intros Hab. destruct (AdaptiveV18.tuple_ltb b a) eqn:Hba; [|done].
  by rewrite <- (tuple_ltb_irrefl a), (tuple_ltb_trans a b a Hab Hba).
Qed.

Lemma tuple_ltb_neg_trans (a b c : score * score * Z) :
  AdaptiveV18.tuple_ltb b a = false → AdaptiveV18.tuple_ltb c b = false →
  AdaptiveV18.tuple_ltb c a = false.
Proof.
  intros Hba Hcb. destruct (AdaptiveV18.tuple_ltb c a) eqn:Hca; [|done].
  destruct (tuple_trichotomy a b) as [Hab|[->|Hba']]; [|congruence|congruence].
  by rewrite (tuple_ltb_trans c a b Hca Hab) in Hcb.
Qed.

(** ** The candidates and their scores *)

Section v18_predictions.
(** The rounded product of the weighted score, whatever it is. *)
Variable weighted_product : Qc → Z → score.

Lemma mapM_total {A B} (f : A → option B) (h : A → B) (l : list A) :
  (∀ x, f x = Some (h x)) → mapM f l = Some (h <$> l).
Proof.
  intros Hf. induction l as [|x l IH]; cbn; [done|]. by rewrite Hf, IH.
Qed.

Lemma weighted_returns (g : EngineV18.engine_globals) (anchor_sn gap_g_n : Z) :
  AdaptiveV18.get_messiness_score_v11_weighted weighted_product g anchor_sn gap_g_n
  = Returns (weighted_score weighted_product g anchor_sn gap_g_n).
Proof.
  unfold weighted_score, AdaptiveV18.get_messiness_score_v11_weighted.
  destruct (EngineV18.MESSINESS_MAP_V_MOD6 g) as [d|]; [|done].
  by destruct (default Inf (d !! (anchor_sn `mod` 6))).
Qed.

Lemma vmod6_returns (g : EngineV18.engine_globals) (anchor_sn : Z) :
  AdaptiveV18.get_vmod6_score g anchor_sn = Returns (vmod6_rate g anchor_sn).
Proof.
  unfold vmod6_rate, AdaptiveV18.get_vmod6_score, EngineV13.get_vmod6_score.
  by destruct (EngineV18.MESSINESS_MAP_V_MOD6 g).
Qed.

Lemma vmod210_returns (g : EngineV18.engine_globals) (anchor_sn : Z) :
  EngineV18.get_vmod210_score g anchor_sn = Returns (vmod210_rate g anchor_sn).
Proof.
  unfold vmod210_rate, EngineV18.get_vmod210_score.
  by destruct (EngineV18.MESSINESS_MAP_V_MOD210 g).
Qed.

Lemma score_candidates_eq (g : EngineV18.engine_globals) (p_n : Z) (candidates : list Z) :
  AdaptiveV18.score_candidates weighted_product g p_n candidates
  = Some ((λ q_i, (weighted_score weighted_product g (p_n + q_i) (q_i - p_n), q_i,
                   vmod6_rate g (p_n + q_i))) <$> candidates).
Proof.
  apply mapM_total. intros q_i. cbv zeta.
  by rewrite weighted_returns, vmod6_returns.
Qed.

Lemma tuple_candidates_eq (g : EngineV18.engine_globals) (p_n : Z) (candidates : list Z) :
  AdaptiveV18.tuple_candidates g p_n candidates
  = Some ((λ q_i, (score_tuple g p_n q_i, q_i)) <$> candidates).
Proof.
  apply mapM_total. intros q_i. cbv zeta.
  by rewrite vmod6_returns, vmod210_returns.
Qed.

Lemma signature_search_spec (sorted : list (score * Z * score)) (ranks : list nat)
    (prediction : Z) :
  AdaptiveV18.signature_search sorted ranks prediction = prediction ∨
  ∃ c : score * Z * score,
    c ∈ sorted ∧ score_ltb AdaptiveV18.MESSY_THRESHOLD c.2 = true ∧
    AdaptiveV18.signature_search sorted ranks prediction = c.1.2.
Proof.
  induction ranks as [|r ranks IH]; cbn -[score_ltb]; [by left|].
  destruct (sorted !! r) as [c|] eqn:Hc; [|by left].
  destruct (score_ltb AdaptiveV18.MESSY_THRESHOLD c.2) eqn:Hmessy; [|exact IH].
  right. exists c. split; [|done]. by eapply list_elem_of_lookup_2.
Qed.

(** What [get_v16_prediction] computes, with the sorted list named. *)
Lemma get_v16_prediction_eq (g : EngineV18.engine_globals) (p_n : Z)
    (candidates : list Z) :
  let sorted :=
    py_sort score_ltb (λ x : score * Z * score, x.1.1)
      ((λ q_i, (weighted_score weighted_product g (p_n + q_i) (q_i - p_n), q_i,
                vmod6_rate g (p_n + q_i))) <$> candidates) in
  AdaptiveV18.get_v16_prediction weighted_product g p_n candidates
  = match head sorted with
    | None => None
    | Some winner =>
        if score_ltb winner.2 AdaptiveV18.CLEAN_THRESHOLD
        then Some (AdaptiveV18.signature_search sorted [1; 2; 3]%nat winner.1.2)
        else Some winner.1.2
    end.
Proof.
  intros sorted. unfold AdaptiveV18.get_v16_prediction.
  rewrite score_candidates_eq. cbn -[py_sort score_ltb AdaptiveV18.signature_search]. fold sorted.
  rewrite <- head_lookup. by destruct (head sorted).
Qed.

Lemma get_v17_prediction_eq (g : EngineV18.engine_globals) (p_n : Z)
    (candidates : list Z) :
  AdaptiveV18.get_v17_tiebreaker_prediction g p_n candidates
  = snd <$> head (py_sort AdaptiveV18.tuple_ltb (λ x : (score * score * Z) * Z, x.1)
                    ((λ q_i, (score_tuple g p_n q_i, q_i)) <$> candidates)).
Proof.
  unfold AdaptiveV18.get_v17_tiebreaker_prediction.
  rewrite tuple_candidates_eq. cbn -[py_sort].
  rewrite <- head_lookup. by destruct (head _).
Qed.


Lemma sorted_scores_elem_of (g : EngineV18.engine_globals) (p_n : Z)
    (candidates : list Z) (c : score * Z * score) :
  c ∈ py_sort score_ltb (λ x : score * Z * score, x.1.1)
        ((λ q_i, (weighted_score weighted_product g (p_n + q_i) (q_i - p_n), q_i,
                  vmod6_rate g (p_n + q_i))) <$> candidates) →
  c.1.2 ∈ candidates ∧
  c.1.1 = weighted_score weighted_product g (p_n + c.1.2) (c.1.2 - p_n) ∧
  c.2 = vmod6_rate g (p_n + c.1.2).
Proof.
  intros Hc. apply py_sort_elem_of, list_elem_of_fmap in Hc.
  by destruct Hc as (q & -> & Hq).
Qed.



(** X9.  Whatever the rounding of the weighted product: the v16 prediction
    is a candidate whose weighted score, as computed, no other candidate's
    is below, unless that candidate is clean (rate below 3) and the
    prediction is a messy candidate (rate above 20). *)
Theorem v16_prediction_override (g : EngineV18.engine_globals) (p_n : Z)
    (candidates : list Z) (q : Z) :
  AdaptiveV18.get_v16_prediction weighted_product g p_n candidates = Some q →
  ∃ w : Z,
    w ∈ candidates ∧
    (∀ z : Z, z ∈ candidates →
       score_ltb (weighted_score weighted_product g (p_n + z) (z - p_n))
                 (weighted_score weighted_product g (p_n + w) (w - p_n)) = false) ∧
    (q = w ∨
     (score_ltb (vmod6_rate g (p_n + w)) AdaptiveV18.CLEAN_THRESHOLD = true ∧
      q ∈ candidates ∧
      score_ltb AdaptiveV18.MESSY_THRESHOLD (vmod6_rate g (p_n + q)) = true)).
Proof.
  rewrite get_v16_prediction_eq. cbv zeta.
  destruct (head _) as [w|] eqn:Hw; [|done].
  pose proof Hw as Hwin.
  apply head_Some_elem_of, sorted_scores_elem_of in Hwin as (Hwin & Hw1 & Hw2).
  apply (py_sort_head_least score_ltb (λ x : score * Z * score, x.1.1)
           score_ltb_asym score_ltb_neg_trans) in Hw as [_ Hleast].
  intros Hq. exists w.1.2. split; [done|]. split.
  { intros z Hz. rewrite <- Hw1.
    apply (Hleast (weighted_score weighted_product g (p_n + z) (z - p_n), z, vmod6_rate g (p_n + z))).
    apply list_elem_of_fmap. by exists z. }
  rewrite <- Hw2.
  destruct (score_ltb w.2 AdaptiveV18.CLEAN_THRESHOLD); apply (inj Some) in Hq as <-;
    [|by left].
  destruct (signature_search_spec
              (py_sort score_ltb (λ x : score * Z * score, x.1.1)
                 ((λ q_i, (weighted_score weighted_product g (p_n + q_i) (q_i - p_n), q_i,
                           vmod6_rate g (p_n + q_i))) <$> candidates))
              [1; 2; 3]%nat w.1.2) as [->|(c & Hc & Hmessy & ->)]; [by left|].
  right. apply sorted_scores_elem_of in Hc as (Hc & _ & Hc2).
  split; [done|]. split; [done|]. by rewrite <- Hc2.
Qed.


(** X10.  The v17 prediction is a candidate whose tuple (mod-6 rate, mod-210
    rate, gap) no other candidate's tuple precedes. *)
Theorem v17_prediction_minimal (g : EngineV18.engine_globals) (p_n : Z)
    (candidates : list Z) (q : Z) :
  AdaptiveV18.get_v17_tiebreaker_prediction g p_n candidates = Some q →
  q ∈ candidates ∧
  ∀ z : Z, z ∈ candidates →
    AdaptiveV18.tuple_ltb (score_tuple g p_n z) (score_tuple g p_n q) = false.
Proof.
  rewrite get_v17_prediction_eq.
  destruct (head _) as [w|] eqn:Hw; [|done]. intros [= <-].
  apply (py_sort_head_least AdaptiveV18.tuple_ltb (λ x : (score * score * Z) * Z, x.1)
           tuple_ltb_asym tuple_ltb_neg_trans) in Hw as [Hwin Hleast].
  apply list_elem_of_fmap in Hwin as (q & -> & Hq). split; [done|].
  intros z Hz. apply (Hleast (score_tuple g p_n z, z)).
  apply list_elem_of_fmap. by exists z.
Qed.


Lemma weighted_inf (g : EngineV18.engine_globals) (anchor_sn gap_g_n : Z) :
  vmod6_rate g anchor_sn = Inf → weighted_score weighted_product g anchor_sn gap_g_n = Inf.
Proof.
  unfold weighted_score, vmod6_rate, AdaptiveV18.get_messiness_score_v11_weighted,
    AdaptiveV18.get_vmod6_score, EngineV13.get_vmod6_score.
  destruct (EngineV18.MESSINESS_MAP_V_MOD6 g) as [d|]; [|done].
  cbn. by intros ->.
Qed.

(** X11.  When no candidate's anchor has an observed mod-6 bucket, as before
    the engine data is loaded, v16 predicts the first candidate, whatever
    the gaps. *)
Theorem v16_without_scores_predicts_first (g : EngineV18.engine_globals) (p_n : Z)
    (q : Z) (candidates : list Z) :
  (∀ z : Z, z ∈ q :: candidates → vmod6_rate g (p_n + z) = Inf) →
  AdaptiveV18.get_v16_prediction weighted_product g p_n (q :: candidates) = Some q.
Proof.
  intros Hinf. rewrite get_v16_prediction_eq. cbv zeta.
  rewrite py_sort_no_inversion.
  - cbn. by rewrite (Hinf q) by left.
  - intros i j x y _ _ Hy.
    apply list_elem_of_lookup_2, list_elem_of_fmap in Hy as (z & -> & Hz). cbn.
    apply Hinf, (weighted_inf g _ (z - p_n)) in Hz. by rewrite Hz.
Qed.

End v18_predictions.

Lemma v16_prediction_override_witness :
  ∃ w : Z,
    w ∈ [11; 13] ∧
    (∀ z : Z, z ∈ [11; 13] →
       score_ltb (weighted_score exact_product loaded_engine (7 + z) (z - 7))
                 (weighted_score exact_product loaded_engine (7 + w) (w - 7)) = false) ∧
    (13 = w ∨
     (score_ltb (vmod6_rate loaded_engine (7 + w)) AdaptiveV18.CLEAN_THRESHOLD = true ∧
      13 ∈ [11; 13] ∧
      score_ltb AdaptiveV18.MESSY_THRESHOLD (vmod6_rate loaded_engine (7 + 13)) = true)).
Proof.
  apply (v16_prediction_override exact_product loaded_engine 7 [11; 13] 13).
  vm_compute. reflexivity.
Defined.

Lemma v17_prediction_minimal_witness :
  11 ∈ [11; 13] ∧
  ∀ z : Z, z ∈ [11; 13] →
    AdaptiveV18.tuple_ltb (score_tuple loaded_engine 7 z) (score_tuple loaded_engine 7 11)
    = false.
Proof.
  apply (v17_prediction_minimal loaded_engine 7 [11; 13] 11).
  vm_compute. reflexivity.
Defined.

Lemma v16_without_scores_predicts_first_witness :
  AdaptiveV18.get_v16_prediction exact_product unloaded_engine 7 [11; 13] = Some 11.
Proof.
  apply (v16_without_scores_predicts_first exact_product unloaded_engine 7 11 [13]).
  intros z _. reflexivity.
Defined.

(** ** The loop of [run_PLR_v18_adaptive_test] *)

Section v18_run.
Variable weighted_product : Qc → Z → score.
Variable NUM_CANDIDATES_TO_CHECK : nat.
Variable g : EngineV18.engine_globals.
Variable prime_list : list Z.




End v18_run.



(** X13.  Without a prime to test the report of the v18 run divides by zero,
    and without a candidate its first prediction indexes an empty list: the
    run raises. *)
Theorem v18_run_raises (weighted_product : Qc → Z → score)
    (PRIMES_TO_TEST NUM_CANDIDATES_TO_CHECK START_INDEX : nat)
    (mod6_file mod210_file : option json_object) (g : EngineV18.engine_globals)
    (prime_list : list Z) :
  PRIMES_TO_TEST = 0%nat ∨ NUM_CANDIDATES_TO_CHECK = 0%nat →
  (EngineV18.load_engine_data mod6_file mod210_file g).1 = true →
  (PRIMES_TO_TEST + START_INDEX + NUM_CANDIDATES_TO_CHECK + 2 < length prime_list)%nat →
  AdaptiveV18.run_PLR_v18_adaptive_test weighted_product PRIMES_TO_TEST NUM_CANDIDATES_TO_CHECK
    START_INDEX mod6_file mod210_file (Some prime_list) g
  = AdaptiveV18.Raised.
Proof.
  intros Hzero Hloaded Hlen.
  unfold AdaptiveV18.run_PLR_v18_adaptive_test, AdaptiveV18.load_primes_from_file.
  destruct (EngineV18.load_engine_data mod6_file mod210_file g) as [loaded g'].
  cbn in Hloaded. subst loaded. cbn [negb].
  destruct (Nat.ltb_spec (length prime_list)
              (PRIMES_TO_TEST + START_INDEX + NUM_CANDIDATES_TO_CHECK + 2)); [lia|].
  destruct (Z.geb_spec (Z.of_nat (PRIMES_TO_TEST + START_INDEX))
              (Z.of_nat (length prime_list) - (Z.of_nat NUM_CANDIDATES_TO_CHECK + 2)));
    [lia|].
  destruct PRIMES_TO_TEST as [|P]; [reflexivity|].
  destruct Hzero as [Hzero| ->]; [done|].
  cbn [seq AdaptiveV18.run_loop]. unfold AdaptiveV18.run_body.
  destruct (lookup_lt_is_Some_2 prime_list START_INDEX) as [p_n ->]; [lia|].
  destruct (lookup_lt_is_Some_2 prime_list (START_INDEX + 1)) as [q ->]; [lia|].
  reflexivity.
Qed.

Lemma v18_run_raises_witness :
  AdaptiveV18.run_PLR_v18_adaptive_test exact_product 0 2 0 (Some (json_dump mod6_rates))
    (Some (json_dump ∅)) (Some first_primes) unloaded_engine
  = AdaptiveV18.Raised.
Proof.
  apply (v18_run_raises exact_product 0 2 0 (Some (json_dump mod6_rates)) (Some (json_dump ∅))
           unloaded_engine first_primes).
  - by left.
  - vm_compute. reflexivity.
  - cbn. lia.
Defined.

(** X14.  A list of exactly the length [load_primes_from_file] requires is
    accepted by the loader and then refused by the guard of the v18 run. *)
Theorem v18_run_needs_one_more_prime (weighted_product : Qc → Z → score)
    (PRIMES_TO_TEST NUM_CANDIDATES_TO_CHECK START_INDEX : nat)
    (mod6_file mod210_file : option json_object) (g : EngineV18.engine_globals)
    (prime_list : list Z) :
  length prime_list
  = (PRIMES_TO_TEST + START_INDEX + NUM_CANDIDATES_TO_CHECK + 2)%nat →
  AdaptiveV18.load_primes_from_file PRIMES_TO_TEST NUM_CANDIDATES_TO_CHECK START_INDEX
    (Some prime_list) = Some prime_list ∧
  AdaptiveV18.run_PLR_v18_adaptive_test weighted_product PRIMES_TO_TEST NUM_CANDIDATES_TO_CHECK
    START_INDEX mod6_file mod210_file (Some prime_list) g
  = AdaptiveV18.Stopped.
Proof.
  intros Hlen.
  unfold AdaptiveV18.run_PLR_v18_adaptive_test, AdaptiveV18.load_primes_from_file.
  destruct (Nat.ltb_spec (length prime_list)
              (PRIMES_TO_TEST + START_INDEX + NUM_CANDIDATES_TO_CHECK + 2)); [lia|].
  split; [reflexivity|].
  destruct (EngineV18.load_engine_data mod6_file mod210_file g) as [[] g'];
    [|reflexivity].
  cbn [negb].
  destruct (Z.geb_spec (Z.of_nat (PRIMES_TO_TEST + START_INDEX))
              (Z.of_nat (length prime_list) - (Z.of_nat NUM_CANDIDATES_TO_CHECK + 2)));
    [reflexivity|lia].
Qed.

Lemma v18_run_needs_one_more_prime_witness :
  AdaptiveV18.load_primes_from_file 15 2 2 (Some first_primes) = Some first_primes ∧
  AdaptiveV18.run_PLR_v18_adaptive_test exact_product 15 2 2 (Some (json_dump mod6_rates))
    (Some (json_dump ∅)) (Some first_primes) unloaded_engine
  = AdaptiveV18.Stopped.
Proof.
  apply (v18_run_needs_one_more_prime exact_product 15 2 2 (Some (json_dump mod6_rates))
           (Some (json_dump ∅)) unloaded_engine first_primes).
  reflexivity.
Defined.

(** ** From the builder of the mod-6 gap map to the engine that reads it *)

Lemma categorize_gap_three (gap_g_n : Z) : categorize_gap gap_g_n ∈ three_categories.
Proof.
  unfold categorize_gap, three_categories.
  destruct (gap_g_n <? GAP_BIN_SMALL); [set_solver|].
  destruct (gap_g_n >=? GAP_BIN_LARGE); set_solver.
Qed.

Lemma three_categories_free (category : string) :
  category ∈ three_categories → free_of "," category.
Proof.
  unfold three_categories. rewrite !elem_of_cons, elem_of_nil.
  intros [-> | [-> | [-> | []]]]; cbn; intuition discriminate.
Qed.

Lemma even_mod_6 (anchor_sn : Z) : Z.even (anchor_sn `mod` 6) = Z.even anchor_sn.
Proof.
  rewrite (Z.div_mod anchor_sn 6) at 2 by lia.
  rewrite Z.even_add, Z.even_mul. cbn. by destruct (Z.even (anchor_sn `mod` 6)).
Qed.

Lemma mod6_gap_key_even (anchor_sn gap_g_n : Z) :
  (anchor_sn `mod` 6, categorize_gap gap_g_n) ∈ mod6_gap_keys
  ↔ Z.even anchor_sn = true.
Proof.
  rewrite <- even_mod_6.
  pose proof (Z.mod_pos_bound anchor_sn 6 ltac:(lia)) as Hr.
  pose proof (categorize_gap_three gap_g_n) as Hc.
  unfold three_categories in Hc. rewrite !elem_of_cons, elem_of_nil in Hc.
  unfold mod6_gap_keys. rewrite !elem_of_cons, elem_of_nil.
  assert (anchor_sn `mod` 6 = 0 ∨ anchor_sn `mod` 6 = 1 ∨ anchor_sn `mod` 6 = 2 ∨
          anchor_sn `mod` 6 = 3 ∨ anchor_sn `mod` 6 = 4 ∨ anchor_sn `mod` 6 = 5)
    as Hcases by lia.
  destruct Hcases as [-> | [-> | [-> | [-> | [-> | ->]]]]];
    destruct Hc as [-> | [-> | [-> | []]]]; cbn; split; intros H;
    first [ reflexivity | discriminate | intuition congruence ].
Qed.

(** X6.  The file written by [test-10_mod6-Gap-Analysis.py] loads into the
    engine of [PLR_conjecture_v_mod6_gap.py], which then scores an even
    anchor by the builder's rate for its residue and gap category, and an
    odd anchor by infinity. *)
Theorem mod6_gap_file_feeds_engine
    (MAX_PRIME_PAIRS_TO_TEST START_INDEX : nat) (prime_list : list Z)
    (g : option (gmap (Z * string) score)) :
  (MAX_PRIME_PAIRS_TO_TEST + START_INDEX + 10 ≤ length prime_list)%nat →
  ∃ (st : GapScan.scan_state) (doc : json_object) (d : gmap (Z * string) score),
    GapScan.scan_prefix START_INDEX 6 prime_list (list_to_set prime_list)
      MAX_PRIME_PAIRS_TO_TEST = Some st ∧
    Mod6Gap.run_mod6_gap_analysis MAX_PRIME_PAIRS_TO_TEST START_INDEX (Some prime_list)
    = Some doc ∧
    Mod6GapEngine.load_engine_data (Some doc) g = (true, Some d) ∧
    ∀ anchor_sn gap_g_n : Z,
      Mod6GapEngine.get_messiness_score_v_mod6_gap (Some d) anchor_sn gap_g_n
      = if Z.even anchor_sn
        then failure_rate
               (get2 (GapScan.failure_map st) (anchor_sn `mod` 6) (categorize_gap gap_g_n))
               (get2 (GapScan.anchor_map st) (anchor_sn `mod` 6) (categorize_gap gap_g_n))
        else Inf.
Proof.
  intros Hlen.
  destruct (gap_scan_prefix_keyed START_INDEX 6 prime_list (list_to_set prime_list)
              ltac:(lia) MAX_PRIME_PAIRS_TO_TEST MAX_PRIME_PAIRS_TO_TEST Hlen)
    as (st & Hst & Hkeyed); [lia|].
  destruct (mod6_gap_lookup st Hkeyed) as (d & Hd & Hlookup).
  exists st, (Mod6Gap.string_key_map d), d.
  split; [exact Hst|]. split; [|split].
  - unfold Mod6Gap.run_mod6_gap_analysis, load_primes_from_file.
    destruct (Nat.ltb_spec (length prime_list)
                (MAX_PRIME_PAIRS_TO_TEST + START_INDEX + 10)); [lia|].
    cbn -[Mod6Gap.messiness_scores_v_mod6_gap GapScan.scan_prefix].
    rewrite Hst.
    cbn -[Mod6Gap.messiness_scores_v_mod6_gap]. by rewrite Hd.
  - apply load_string_key_map. intros residue category [v Hv].
    rewrite Hlookup in Hv. case_decide as Hkey; [|done].
    apply three_categories_free. unfold mod6_gap_keys in Hkey.
    unfold three_categories.
    repeat (apply elem_of_cons in Hkey as [[= -> ->]|Hkey];
            [rewrite !elem_of_cons; tauto|]).
    by apply elem_of_nil in Hkey.
  - intros anchor_sn gap_g_n. unfold Mod6GapEngine.get_messiness_score_v_mod6_gap.
    cbv zeta. rewrite Hlookup. cbn [fst snd].
    destruct (Z.even anchor_sn) eqn:Heven.
    + rewrite decide_True; [done|]. by apply mod6_gap_key_even.
    + rewrite decide_False; [done|]. rewrite mod6_gap_key_even. congruence.
Qed.

Lemma mod6_gap_file_feeds_engine_witness :
  ∃ (st : GapScan.scan_state) (doc : json_object) (d : gmap (Z * string) score),
    GapScan.scan_prefix 10 6 first_primes (list_to_set first_primes) 1 = Some st ∧
    Mod6Gap.run_mod6_gap_analysis 1 10 (Some first_primes) = Some doc ∧
    Mod6GapEngine.load_engine_data (Some doc) None = (true, Some d) ∧
    ∀ anchor_sn gap_g_n : Z,
      Mod6GapEngine.get_messiness_score_v_mod6_gap (Some d) anchor_sn gap_g_n
      = if Z.even anchor_sn
        then failure_rate
               (get2 (GapScan.failure_map st) (anchor_sn `mod` 6) (categorize_gap gap_g_n))
               (get2 (GapScan.anchor_map st) (anchor_sn `mod` 6) (categorize_gap gap_g_n))
        else Inf.
Proof.
  apply (mod6_gap_file_feeds_engine 1 10 first_primes None).
  vm_compute. lia.
Defined.

(** ** The v13 rule and the v16 tool *)

Section v13_rule.
Variable weighted_product : Qc → Z → score.

Lemma sort_insert_fmap {A B K} (ltb : K → K → bool) (key : B → K) (f : A → B)
    (x : A) (l : list A) :
  sort_insert ltb key (f x) (f <$> l) = f <$> sort_insert ltb (λ a, key (f a)) x l.
Proof.
  induction l as [|y l IH]; cbn; [done|].
  destruct (ltb (key (f x)) (key (f y))); [done|]. cbn. by rewrite IH.
Qed.

Lemma py_sort_fmap {A B K} (ltb : K → K → bool) (key : B → K) (f : A → B)
    (l : list A) :
  py_sort ltb key (f <$> l) = f <$> py_sort ltb (λ a, key (f a)) l.
Proof.
  induction l as [|x l IH] using rev_ind; [done|].
  rewrite fmap_app. change (f <$> [x]) with [f x].
  by rewrite !py_sort_snoc, IH, sort_insert_fmap.
Qed.

Lemma v13_weighted (g : EngineV18.engine_globals) (anchor_sn gap_g_n : Z) :
  RecursiveV13.get_messiness_score_v11_weighted weighted_product (EngineV18.MESSINESS_MAP_V_MOD6 g)
    anchor_sn gap_g_n
  = weighted_score weighted_product g anchor_sn gap_g_n.
Proof.
  unfold weighted_score, AdaptiveV18.get_messiness_score_v11_weighted,
    RecursiveV13.get_messiness_score_v11_weighted.
  destruct (EngineV18.MESSINESS_MAP_V_MOD6 g) as [d|]; [|done].
  by destruct (default Inf (d !! (anchor_sn `mod` 6))).
Qed.

Lemma v13_vmod6 (g : EngineV18.engine_globals) (anchor_sn : Z) :
  outcome_value (EngineV13.get_vmod6_score (EngineV18.MESSINESS_MAP_V_MOD6 g) anchor_sn)
  = Some (vmod6_rate g anchor_sn).
Proof.
  unfold vmod6_rate, AdaptiveV18.get_vmod6_score, EngineV13.get_vmod6_score.
  by destruct (EngineV18.MESSINESS_MAP_V_MOD6 g).
Qed.

Lemma recursive_search_signature (g : EngineV18.engine_globals) (p_n : Z)
    (sorted : list (score * Z)) (ranks : list nat) (prediction : Z) :
  fst <$> RecursiveV13.recursive_search (EngineV18.MESSINESS_MAP_V_MOD6 g) sorted p_n
            ranks prediction
  = Some (AdaptiveV18.signature_search
            ((λ x : score * Z, (x.1, x.2, vmod6_rate g (p_n + x.2))) <$> sorted)
            ranks prediction).
Proof.
  induction ranks as [|r ranks IH]; [done|].
  cbn -[score_ltb]. rewrite list_lookup_fmap.
  destruct (sorted !! r) as [c|]; [|done].
  cbn -[score_ltb]. rewrite v13_vmod6. cbn -[score_ltb].
  change RecursiveV13.MESSY_THRESHOLD with AdaptiveV18.MESSY_THRESHOLD.
  by destruct (score_ltb AdaptiveV18.MESSY_THRESHOLD (vmod6_rate g (p_n + c.2))).
Qed.

(** X15.  The v16 tool of [v18_adaptive_engine.py] predicts what the rule of
    [v13_recursive_signature.py] predicts with search depth 4. *)
Theorem v16_is_v13_with_depth_4 (g : EngineV18.engine_globals) (p_n : Z)
    (candidates : list Z) :
  AdaptiveV18.get_v16_prediction weighted_product g p_n candidates
  = (λ r : Z * Z * bool, r.1.2)
      <$> RecursiveV13.predictions weighted_product 4 (EngineV18.MESSINESS_MAP_V_MOD6 g) p_n candidates.
Proof.
  rewrite get_v16_prediction_eq. cbv zeta. unfold RecursiveV13.predictions. cbv zeta.
  assert ((λ q_i,
             (RecursiveV13.get_messiness_score_v11_weighted weighted_product
                (EngineV18.MESSINESS_MAP_V_MOD6 g) (p_n + q_i) (q_i - p_n), q_i))
            <$> candidates
          = (λ q_i, (weighted_score weighted_product g (p_n + q_i) (q_i - p_n), q_i)) <$> candidates)
    as ->.
  { induction candidates as [|q l IH]; cbn; [done|]. by rewrite v13_weighted, IH. }
  replace ((λ q_i, (weighted_score weighted_product g (p_n + q_i) (q_i - p_n), q_i,
                    vmod6_rate g (p_n + q_i))) <$> candidates)
    with ((λ x : score * Z, (x.1, x.2, vmod6_rate g (p_n + x.2)))
            <$> ((λ q_i, (weighted_score weighted_product g (p_n + q_i) (q_i - p_n), q_i)) <$> candidates))
    by (by rewrite <- list_fmap_compose).
  rewrite py_sort_fmap. cbn [fst snd].
  set (sorted := py_sort score_ltb (λ a : score * Z, a.1) _).
  rewrite <- head_lookup.
  destruct sorted as [|w sorted'] eqn:Hsorted; [done|].
  cbn [head fmap list_fmap mbind option_bind fst snd].
  rewrite v13_vmod6. cbn [mbind option_bind].
  change RecursiveV13.CLEAN_THRESHOLD with AdaptiveV18.CLEAN_THRESHOLD.
  destruct (score_ltb (vmod6_rate g (p_n + w.2)) AdaptiveV18.CLEAN_THRESHOLD); [|done].
  pose proof (recursive_search_signature g p_n (w :: sorted') [1; 2; 3]%nat w.2) as Hsearch.
  change (seq 1 (4 - 1)) with [1; 2; 3]%nat.
  destruct (RecursiveV13.recursive_search _ _ _ _ _) as [[q overridden]|];
    cbn in Hsearch; [|done].
  cbn. by rewrite <- Hsearch.
Qed.

End v13_rule.

(** ** The loop of [run_PLR_v13_recursive_signature_test] *)

Section v13_run.
Variable weighted_product : Qc → Z → score.
Variable NUM_CANDIDATES_TO_CHECK : nat.
Variable RECURSIVE_SEARCH_DEPTH : nat.
Variable MESSINESS_MAP_V_MOD6 : option (gmap Z score).
Variable prime_list : list Z.





End v13_run.



(** ** The two hard-coded engines *)

Lemma odd_mod_30 (anchor_sn : Z) : Z.odd (anchor_sn `mod` 30) = Z.odd anchor_sn.
Proof.
  rewrite (Z.div_mod anchor_sn 30) at 2 by lia.
  rewrite Z.odd_add, Z.odd_mul. cbn. by destruct (Z.odd (anchor_sn `mod` 30)).
Qed.

(** X17.  The v1.0 engine scores an anchor 0 exactly when the anchor is odd. *)
Theorem v1_score_zero_iff_odd (anchor_sn : Z) :
  EngineV1.get_messiness_score anchor_sn = 0 ↔ Z.odd anchor_sn = true.
Proof.
  rewrite <- odd_mod_30. unfold EngineV1.get_messiness_score. cbv zeta.
  pose proof (Z.mod_pos_bound anchor_sn 30 ltac:(lia)) as Hr.
  assert (forallb (λ r, Bool.eqb (default 0 (EngineV1.FAILURE_COUNTS_MOD_30 !! r) =? 0)
                          (Z.odd r))
            (seqZ 0 30) = true) as Hall by (vm_compute; reflexivity).
  rewrite forallb_forall in Hall.
  specialize (Hall (anchor_sn `mod` 30)).
  apply Bool.eqb_prop in Hall; [|apply list_elem_of_In, elem_of_seqZ; lia].
  rewrite <- Hall. symmetry. apply Z.eqb_eq.
Qed.

Lemma forallb_map_to_list `{Countable K} {A} (P : A → bool) (m : gmap K A)
    (k : K) (v : A) :
  forallb (λ kv : K * A, P kv.2) (map_to_list m) = true →
  m !! k = Some v → P v = true.
Proof.
  intros Hall Hv. rewrite forallb_forall in Hall.
  apply (Hall (k, v)), list_elem_of_In, elem_of_map_to_list, Hv.
Qed.

Lemma v2_1_map_above_immunity (key : Z * string) :
  score_ltb EngineV2_1.IMMUNITY_P4_SCORE
    (default Inf (EngineV2_1.MESSINESS_MAP_V2_1 !! key)) = true.
Proof.
  destruct (EngineV2_1.MESSINESS_MAP_V2_1 !! key) as [v|] eqn:Hv; [|reflexivity].
  assert (forallb (λ kv : (Z * string) * score,
                     score_ltb EngineV2_1.IMMUNITY_P4_SCORE kv.2)
            (map_to_list EngineV2_1.MESSINESS_MAP_V2_1) = true) as Hall
    by (vm_compute; reflexivity).
  exact (forallb_map_to_list (score_ltb EngineV2_1.IMMUNITY_P4_SCORE)
           EngineV2_1.MESSINESS_MAP_V2_1 key v Hall Hv).
Qed.

(** X18.  In the v2.1 engine an anchor divisible by 2310 scores below every
    anchor that is not, and an anchor divisible by 210 below every anchor
    that is not, whatever the gaps. *)
Theorem v2_1_immune_anchor_scores_lowest (anchor_sn gap_g_n other_sn other_g_n : Z) :
  (anchor_sn `mod` 2310 = 0 → other_sn `mod` 2310 ≠ 0 →
   score_ltb (EngineV2_1.get_messiness_score_v2_1 anchor_sn gap_g_n)
             (EngineV2_1.get_messiness_score_v2_1 other_sn other_g_n) = true) ∧
  (anchor_sn `mod` 210 = 0 → other_sn `mod` 210 ≠ 0 →
   score_ltb (EngineV2_1.get_messiness_score_v2_1 anchor_sn gap_g_n)
             (EngineV2_1.get_messiness_score_v2_1 other_sn other_g_n) = true).
Proof.
  pose proof (v2_1_map_above_immunity
                (other_sn `mod` 30, categorize_gap other_g_n)) as Habove.
  assert (score_ltb EngineV2_1.IMMUNITY_P5_SCORE EngineV2_1.IMMUNITY_P4_SCORE = true)
    as H54 by (vm_compute; reflexivity).
  unfold EngineV2_1.get_messiness_score_v2_1. cbv zeta. split.
  - intros -> Hother. cbn [Z.eqb].
    destruct (Z.eqb_spec (other_sn `mod` 2310) 0); [done|].
    destruct (other_sn `mod` 210 =? 0); [exact H54|].
    exact (score_ltb_trans _ _ _ H54 Habove).
  - intros Hanchor Hother.
    destruct (Z.eqb_spec (other_sn `mod` 2310) 0) as [H2310|_].
    { exfalso. apply Hother.
      apply Z.mod_divide in H2310 as [c Hc]; [|lia].
      apply Z.mod_divide; [lia|]. exists (c * 11). lia. }
    destruct (Z.eqb_spec (other_sn `mod` 210) 0); [done|].
    rewrite Hanchor. cbn [Z.eqb].
    destruct (anchor_sn `mod` 2310 =? 0); [|exact Habove].
    exact (score_ltb_trans _ _ _ H54 Habove).
Qed.

Lemma v2_1_immune_anchor_scores_lowest_witness :
  score_ltb (EngineV2_1.get_messiness_score_v2_1 2310 2)
            (EngineV2_1.get_messiness_score_v2_1 210 4) = true ∧
  score_ltb (EngineV2_1.get_messiness_score_v2_1 210 4)
            (EngineV2_1.get_messiness_score_v2_1 68 6) = true.
Proof.
  split.
  - apply (proj1 (v2_1_immune_anchor_scores_lowest 2310 2 210 4));
      [reflexivity|discriminate].
  - apply (proj2 (v2_1_immune_anchor_scores_lowest 210 4 68 6));
      [reflexivity|discriminate].
Defined.
